(** * Explicit-feedback neural recommender notebook: a shallow embedding

    The notebook [labs/02_neural_recsys/Explicit_Feedback_Neural_Recommender_System.ipynb]
    is glue code around pandas, numpy, scikit-learn and Keras.  Each cell that
    carries logic of its own is embedded below as a function over lists, maps
    and strings; library primitives whose result is not determined by the
    notebook (the network, the zip reader, the random permutation, the sort
    used by [np.argsort], the trained weights, float arithmetic) are Section
    variables, constrained only by what their documentation guarantees. *)

From Stdlib Require Import ZArith List Ascii String Permutation Sorted Lia.
From Stdlib Require Reals Lra.
From stdpp Require Import base option list gmap strings.

Local Open Scope Z_scope.

(** ** Python string primitives used by the notebook *)
Module PyStr.

(** [s.rsplit(sep, 1)] for a one-character separator: the split at the LAST
    occurrence, [None] when [sep] does not occur. *)
Fixpoint rsplit_last (sep : ascii) (s : string) : option (string * string) :=
  match s with
  | EmptyString => None
  | String c s' =>
      match rsplit_last sep s' with
      | Some (a, b) => Some (String c a, b)
      | None => if Ascii.eqb c sep then Some (EmptyString, s') else None
      end
  end.

Definition rsplit1 (sep : ascii) (s : string) : list string :=
  match rsplit_last sep s with
  | Some (a, b) => [a; b]
  | None => [s]
  end.

(** [s[-n:]] for [n > 0]: the last [n] characters, the whole string when it
    is shorter. *)
Definition drop_str (k : nat) (s : string) : string :=
  String.substring k (String.length s - k) s.

Definition suffix (n : nat) (s : string) : string :=
  drop_str (String.length s - n) s.

(** Code points that [str.strip()] and [int()] treat as white space in a
    latin-1 decoded string. *)
Definition is_space (c : ascii) : bool :=
  let n := nat_of_ascii c in
  ((9 <=? n) && (n <=? 13) || (28 <=? n) && (n <=? 32)
   || (n =? 133) || (n =? 160))%nat.

Fixpoint lstrip (s : string) : string :=
  match s with
  | String c s' => if is_space c then lstrip s' else s
  | EmptyString => EmptyString
  end.

Fixpoint rstrip (s : string) : string :=
  match s with
  | EmptyString => EmptyString
  | String c s' =>
      match rstrip s' with
      | EmptyString => if is_space c then EmptyString else String c EmptyString
      | t => String c t
      end
  end.

Definition strip (s : string) : string := rstrip (lstrip s).

Definition digit_of (c : ascii) : option Z :=
  let n := nat_of_ascii c in
  if ((48 <=? n) && (n <=? 57))%nat then Some (Z.of_nat n - 48) else None.

(** Decimal digits, most significant first; [acc] is the value read so far.
    At least one digit is required by the callers. *)
Fixpoint digits_from (acc : Z) (s : string) : option Z :=
  match s with
  | EmptyString => Some acc
  | String c s' =>
      match digit_of c with
      | Some d => digits_from (10 * acc + d) s'
      | None => None
      end
  end.

Definition digits (s : string) : option Z :=
  match s with
  | EmptyString => None
  | _ => digits_from 0 s
  end.

(** [int(s)] on a [str] (Python 3.5, the notebook's kernel): surrounding white
    space is dropped, one sign is allowed, then decimal digits only.  [None]
    stands for [ValueError]. *)
Definition int (s : string) : option Z :=
  match strip s with
  | String "-"%char r => Z.opp <$> digits r
  | String "+"%char r => digits r
  | t => digits t
  end.

End PyStr.

(** ** Cell 1: fetching and unpacking the archive *)
Module Setup.

Definition ML_100K_URL : string :=
  "http://files.grouplens.org/datasets/movielens/ml-100k.zip".

(** [ML_100K_URL.rsplit('/', 1)[1]]; the index cannot fail on this constant,
    the default only makes the definition total. *)
Definition ML_100K_FILENAME : string :=
  nth 1 (PyStr.rsplit1 "/"%char ML_100K_URL) EmptyString.

Definition ML_100K_FOLDER : string := "ml-100k".

(** What a path of the working directory holds. *)
Inductive node :=
  | File (content : string)
  | Dir.

(** What the cell does to the outside world, in order. *)
Inductive event :=
  | Print (msg : string)
  | Download (url dest : string)
  | Extract (archive : string).

Inductive status := Finished | Raised.

Record outcome := Outcome {
  out_fs : gmap string node;
  out_trace : list event;
  out_status : status
}.

(** [op.exists(path)] *)
Definition exists_ (fs : gmap string node) (path : string) : bool :=
  bool_decide (is_Some (fs !! path)).

Section Cell.
(** [fetch url]: the bytes served at [url], or [None] when [urlretrieve]
    raises.  [members bytes]: the entries of a zip archive as paths
    relative to the extraction directory, or [None] when [ZipFile] rejects
    the bytes. *)
Variable fetch : string -> option string.
Variable members : string -> option (list (string * node)).

(** [urlretrieve(url, filename)] *)
Definition urlretrieve (url filename : string) (fs : gmap string node)
  : option (gmap string node) :=
  c ← fetch url; Some (<[filename := File c]> fs).

(** [ZipFile(filename).extractall('.')]: entries overwrite what is there. *)
Definition extractall (filename : string) (fs : gmap string node)
  : option (gmap string node) :=
  match fs !! filename with
  | Some (File c) =>
      ms ← members c;
      Some (foldl (fun m e => <[e.1 := e.2]> m) fs ms)
  | _ => None
  end.

Definition download_step (fs : gmap string node) : outcome :=
  if exists_ fs ML_100K_FILENAME then Outcome fs [] Finished
  else
    let tr := [Print ("Downloading " ++ ML_100K_URL ++ " to "
                        ++ ML_100K_FILENAME ++ "...")%string;
               Download ML_100K_URL ML_100K_FILENAME] in
    match urlretrieve ML_100K_URL ML_100K_FILENAME fs with
    | Some fs' => Outcome fs' tr Finished
    | None => Outcome fs tr Raised
    end.

Definition extract_step (fs : gmap string node) : outcome :=
  if exists_ fs ML_100K_FOLDER then Outcome fs [] Finished
  else
    let tr := [Print ("Extracting " ++ ML_100K_FILENAME ++ " to "
                        ++ ML_100K_FOLDER ++ "...")%string;
               Extract ML_100K_FILENAME] in
    match extractall ML_100K_FILENAME fs with
    | Some fs' => Outcome fs' tr Finished
    | None => Outcome fs tr Raised
    end.

(** The two [if] statements in sequence; an exception in the first one
    ends the cell. *)
Definition setup (fs : gmap string node) : outcome :=
  let o1 := download_step fs in
  match out_status o1 with
  | Raised => o1
  | Finished =>
      let o2 := extract_step (out_fs o1) in
      Outcome (out_fs o2) (out_trace o1 ++ out_trace o2) (out_status o2)
  end.

Definition downloads (o : outcome) : Prop :=
  exists url dest, Download url dest ∈ out_trace o.
Definition extracts (o : outcome) : Prop :=
  exists a, Extract a ∈ out_trace o.
End Cell.

End Setup.

(** ** Cells 3-9: the ratings table and the item table *)
Module Data.

(** One line of [u.data], under the column names the notebook gives. *)
Record rating_row := Rating {
  user_id : Z;
  item_id : Z;
  rating : Z;
  timestamp : Z
}.

(** A rating of one to five stars. *)
Definition in_stars (r : rating_row) : Prop := 1 <= rating r <= 5.

(** [s.split(sep)] for a one-character separator. *)
Fixpoint split_on (sep : ascii) (s : string) : list string :=
  match s with
  | EmptyString => [EmptyString]
  | String c s' =>
      if Ascii.eqb c sep then EmptyString :: split_on sep s'
      else match split_on sep s' with
           | h :: t => String c h :: t
           | [] => [String c EmptyString]
           end
  end.

(** A field that pandas reads as an integer: digits, possibly negated. *)
Definition int_field (s : string) : option Z :=
  match s with
  | String "-"%char r => Z.opp <$> PyStr.digits r
  | _ => PyStr.digits s
  end.

Definition parse_row (line : string) : option rating_row :=
  match split_on "009"%char line with
  | [u; i; r; t] =>
      u ← int_field u; i ← int_field i; r ← int_field r; t ← int_field t;
      Some (Rating u i r t)
  | _ => None
  end.

Definition nonblank (line : string) : bool :=
  negb (String.eqb line EmptyString).

(** [pd.read_csv(path, sep='\t', names=[user_id, item_id, rating, timestamp])]
    on a file of four integer columns with newline-terminated lines: blank
    lines are skipped, every other line gives one row, whatever the integers
    are.  Files with other content are outside this model ([None]). *)
Definition read_ratings (text : string) : option (list rating_row) :=
  mapM parse_row (filter (fun l => nonblank l = true) (split_on "010"%char text)).

(** [all_ratings['user_id'].max()], [all_ratings['item_id'].max()] *)
Definition column_max (col : rating_row -> Z) (rows : list rating_row) : option Z :=
  match rows with
  | [] => None
  | r :: rs => Some (foldl (fun m x => Z.max m (col x)) (col r) rs)
  end.

(** A cell of the item table as pandas holds it. *)
Inductive cell :=
  | NaN
  | Str (s : string)
  | Num (z : Z).

(** A row of [u.item] under the notebook's 23 column names; the file has one
    more field per line than there are names, so pandas takes the first field
    (the movie id) as the row's index label. *)
Record item_row := Item {
  name : cell;
  date : cell;
  genre : cell;
  url : cell;
  f : list cell
}.

Definition fillna_cell (value : cell) (c : cell) : cell :=
  match c with
  | NaN => value
  | _ => c
  end.

(** [items.fillna(value=..., inplace=True)]: every missing cell of every
    column is replaced. *)
Definition fillna_row (value : cell) (r : item_row) : item_row :=
  Item (fillna_cell value (name r)) (fillna_cell value (date r))
       (fillna_cell value (genre r)) (fillna_cell value (url r))
       (fillna_cell value <$> f r).

Definition fillna (value : cell) (items : list (Z * item_row)) : list (Z * item_row) :=
  prod_map id (fillna_row value) <$> items.

Definition MISSING_DATE : string := "01-Jan-1997".

(** Cell 5 after [read_csv]. *)
Definition load_items (raw : list (Z * item_row)) : list (Z * item_row) :=
  fillna (Str MISSING_DATE) raw.

(** [int(film_date[-4:])]; slicing a cell that is not a string raises. *)
Definition parsed_date (film_date : cell) : option Z :=
  match film_date with
  | Str s => PyStr.int (PyStr.suffix 4 s)
  | _ => None
  end.

(** The list comprehension of cell 44 over [items["date"].tolist()]. *)
Definition parsed_dates (items : list (Z * item_row)) : option (list Z) :=
  mapM (fun it => parsed_date (date it.2)) items.

(** A pandas Series with an integer index, [s[label]]: label based, and
    [None] ([KeyError]) for a label that the index does not hold.  The movie
    ids of [u.item] are distinct, so the first match is the match. *)
Fixpoint loc {A} (s : list (Z * A)) (label : Z) : option A :=
  match s with
  | [] => None
  | (l, x) :: s' => if Z.eqb l label then Some x else loc s' label
  end.

(** [s[labels]] for an array of labels. *)
Definition loc_all {A} (s : list (Z * A)) (labels : list Z) : option (list A) :=
  mapM (loc s) labels.

(** A one-line [u.data] whose rating is seven. *)
Definition seven_stars : string :=
  ("1" ++ String "009" "1" ++ String "009" "7" ++ String "009" "881250949"
       ++ String "010" "")%string.

(** Two rows of [u.item] as [read_csv] gives them: the second has no date. *)
Definition two_items : list (Z * item_row) :=
  [(1, Item (Str "Toy Story (1995)") (Str "01-Jan-1995") NaN (Str "http://a") [Num 0; Num 1]);
   (267, Item (Str "unknown") NaN NaN NaN [Num 1; Num 0])].

End Data.

(** ** Cell 10: [train_test_split(all_ratings, test_size=0.2, random_state=0)] *)
Module Split.

Section Split.
Context {A : Type}.
(** [rng.permutation(n)] of the generator seeded with [random_state=0]. *)
Variable permutation : nat -> list nat.

(** [ceil(test_size * n)] for [test_size = 0.2]. *)
Definition n_test (n : nat) : nat := ((n + 4) / 5)%nat.
(** [train_size] is [None]: the complement. *)
Definition n_train (n : nat) : nat := (n - n_test n)%nat.

(** [X.iloc[indices]]: the rows at these positions, each with its index
    label; a position out of range raises. *)
Definition iloc (rows : list A) (indices : list nat) : option (list (nat * A)) :=
  mapM (fun i => (fun r => (i, r)) <$> rows !! i) indices.

Definition train_test_split (rows : list A)
  : option (list (nat * A) * list (nat * A)) :=
  let n := length rows in
  let perm := permutation n in
  let ind_test := take (n_test n) perm in
  let ind_train := take (n_train n) (drop (n_test n) perm) in
  train ← iloc rows ind_train;
  test ← iloc rows ind_test;
  Some (train, test).
End Split.

(** A permutation to run the split on: the positions in reverse. *)
Definition reversed (n : nat) : list nat := reverse (seq 0 n).

(** A table of three rows and its split under [reversed]. *)
Definition three_rows : list string := ["a"; "b"; "c"]%string.
Definition three_train : list (nat * string) := [(1%nat, "b"); (0%nat, "a")]%string.
Definition three_test : list (nat * string) := [(2%nat, "c")]%string.

End Split.

(** ** Cell 44: the release year and its scaled version *)
Module Scale.
Import Stdlib.Reals.Reals.
Local Open Scope R_scope.

(** float64 is idealised as [R]: the statements below are about the
    arithmetic [sklearn.preprocessing.scale] performs, not about rounding. *)
Definition sum (xs : list R) : R := foldr Rplus 0 xs.

Definition mean (xs : list R) : R := sum xs / INR (length xs).

(** [X.std(axis=0)]: the population standard deviation. *)
Definition var (xs : list R) : R :=
  mean ((fun x => (x - mean xs) * (x - mean xs)) <$> xs).

Definition std (xs : list R) : R := sqrt (var xs).

(** A zero deviation would divide by zero: scikit-learn divides by one. *)
Definition handle_zeros_in_scale (s : R) : R :=
  if Req_dec_T s 0 then 1 else s.

(** [scale(X)] with the default [with_mean=True, with_std=True]; an empty
    column is refused. *)
Definition scale (xs : list R) : option (list R) :=
  match xs with
  | [] => None
  | _ => Some ((fun x => (x - mean xs) / handle_zeros_in_scale (std xs)) <$> xs)
  end.

(** [items['parsed_date'].astype('float64')] then [scale]; the result is
    stored row by row as the column [scaled_date]. *)
Definition scaled_date (items : list (Z * Data.item_row)) : option (list (Z * R)) :=
  ds ← Data.parsed_dates items;
  sc ← scale (IZR <$> ds);
  Some (zip (items.*1) sc).

End Scale.

(** ** Cells 14 and 46: the Keras graphs, one sample at a time *)
Module Keras.

Section Layers.
Context {F : Type}.
Variable zero : F.
Variables add mul : F -> F -> F.
Variable relu : F -> F.

(** [Embedding(input_dim, output_dim)]: row [i] of the table for each id of
    the sample; an id outside [0, input_dim) is an error. *)
Definition Embedding (W : list (list F)) (ids : list Z) : option (list (list F)) :=
  mapM (fun i => if decide (0 <= i) then W !! Z.to_nat i else None) ids.

(** [(input_length, embedding_size)] to [(input_length * embedding_size)] *)
Definition Flatten (t : list (list F)) : list F := concat t.

Definition dot (x y : list F) : F := foldr add zero (zip_with mul x y).

(** [Merge(mode="dot")]: one number per sample. *)
Definition Merge_dot (x y : list F) : list F := [dot x y].

(** [merge(..., mode='concat')] *)
Definition merge_concat (xs : list (list F)) : list F := concat xs.

(** [Dense(units, activation)]: [activation(x . kernel + bias)], the kernel
    holding one row per input coordinate. *)
Definition Dense (kernel : list (list F)) (bias : list F) (activation : F -> F)
  (x : list F) : list F :=
  activation <$>
    foldl (zip_with add) bias (zip_with (fun xi row => mul xi <$> row) x kernel).

(** [Dropout(rate)] when predicting: the identity. *)
Definition Dropout (x : list F) : list F := x.

Definition embedding_size : nat := 30.

Record mf_weights := MFWeights {
  user_embeddings : list (list F);
  item_embeddings : list (list F)
}.

Definition has_shape (rows cols : nat) (W : list (list F)) : bool :=
  (length W =? rows)%nat && forallb (fun r => (length r =? cols)%nat) W.

(** The tables that cell 14 allocates: [max_user_id + 1] and
    [max_item_id + 1] rows of [embedding_size] numbers. *)
Definition mf_built (max_user_id max_item_id : Z) (W : mf_weights) : bool :=
  has_shape (Z.to_nat (max_user_id + 1)) embedding_size (user_embeddings W)
  && has_shape (Z.to_nat (max_item_id + 1)) embedding_size (item_embeddings W).

(** Cell 14 on one sample; each input has shape [1]. *)
Definition mf_model (W : mf_weights) (user item : list Z) : option (list F) :=
  user_embedding ← Embedding (user_embeddings W) user;
  item_embedding ← Embedding (item_embeddings W) item;
  let user_vecs := Flatten user_embedding in
  let item_vecs := Flatten item_embedding in
  Some (Merge_dot user_vecs item_vecs).

(** [model.predict([user_ids, item_ids])]: row by row. *)
Definition mf_predict (W : mf_weights) (users items : list Z)
  : option (list (list F)) :=
  mapM (fun ui => mf_model W [ui.1] [ui.2]) (zip users items).

Definition meta_embedding_size : nat := 32.

Record hybrid_weights := HybridWeights {
  h_user_embeddings : list (list F);
  h_item_embeddings : list (list F);
  dense_1 : list (list F) * list F;
  dense_2 : list (list F) * list F;
  dense_3 : list (list F) * list F
}.

Definition hybrid_built (max_user_id max_item_id : Z) (W : hybrid_weights) : bool :=
  has_shape (Z.to_nat (max_user_id + 1)) meta_embedding_size (h_user_embeddings W)
  && has_shape (Z.to_nat (max_item_id + 1)) meta_embedding_size (h_item_embeddings W).

(** The layers of cell 46 after the merge. *)
Definition hybrid_head (W : hybrid_weights) (input_vecs : list F) : list F :=
  let x := Dense (dense_1 W).1 (dense_1 W).2 relu input_vecs in
  let x := Dropout x in
  let x := Dense (dense_2 W).1 (dense_2 W).2 relu x in
  Dense (dense_3 W).1 (dense_3 W).2 (fun v => v) x.

(** Cell 46 on one sample: three inputs of shape [1]. *)
Definition hybrid_model (W : hybrid_weights) (user item : list Z) (meta : list F)
  : option (list F) :=
  user_embedding ← Embedding (h_user_embeddings W) user;
  item_embedding ← Embedding (h_item_embeddings W) item;
  let user_vecs := Flatten user_embedding in
  let item_vecs := Flatten item_embedding in
  let input_vecs := merge_concat [user_vecs; item_vecs; meta] in
  Some (hybrid_head W input_vecs).
End Layers.

(** Integer weights to run both graphs on, for ids 0 and 1. *)
Definition demo_mf : mf_weights :=
  MFWeights [replicate 30 1; replicate 30 2] [replicate 30 3; replicate 30 (-1)].

Definition demo_hybrid : hybrid_weights :=
  HybridWeights [replicate 32 1; replicate 32 2] [replicate 32 3; replicate 32 (-1)]
    (replicate 65 (replicate 64 1), replicate 64 0)
    (replicate 64 (replicate 32 1), replicate 32 (-5))
    (replicate 32 [2], [7]).

End Keras.

(** ** Cell 38: the similarity functions as the notebook has them *)
Module Similarity.

Section Cell.
Context {F : Type}.
(** The float literal [0.] *)
Variable zero : F.
Variable item_embeddings : list (list F).
Variable items : list (Z * Data.item_row).

Definition cosine (x y : list F) : F := zero.

Definition euclidean_distances (x : list F) : F := zero.

Definition most_similar (idx : Z) (top_n : Z) : option (list Data.cell) :=
  let idxs := [1; 2; 3] in
  Data.loc_all (prod_map id Data.name <$> items) idxs.
End Cell.

(** Four movies to query. *)
Definition four_items : list (Z * Data.item_row) :=
  [(1, Data.Item (Data.Str "Toy Story (1995)") (Data.Str "01-Jan-1995") Data.NaN Data.NaN []);
   (2, Data.Item (Data.Str "GoldenEye (1995)") (Data.Str "01-Jan-1995") Data.NaN Data.NaN []);
   (3, Data.Item (Data.Str "Four Rooms (1995)") (Data.Str "01-Jan-1995") Data.NaN Data.NaN []);
   (4, Data.Item (Data.Str "Get Shorty (1995)") (Data.Str "01-Jan-1995") Data.NaN Data.NaN [])].

End Similarity.

(** ** [np.argsort] *)
Module Numpy.

Section Argsort.
Context {score : Type}.
(** The order of the array's element type. *)
Variable leb : score -> score -> bool.

(** What numpy promises of [np.argsort(v)]: the positions of [v], each once,
    in an order that sorts [v].  Which of two equal elements comes first is
    left open (the default sort is not stable). *)
Definition is_argsort (v : list score) (l : list nat) : Prop :=
  Permutation l (seq 0 (length v)) /\
  forall i j p q x y, (i <= j)%nat ->
    l !! i = Some p -> l !! j = Some q ->
    v !! p = Some x -> v !! q = Some y -> leb x y = true.

(** Position [p] may stand before position [q] in a sorted order of [v]. *)
Definition before (v : list score) (p q : nat) : Prop :=
  forall x y, v !! p = Some x -> v !! q = Some y -> leb x y = true.

Definition le_at (v : list score) (p q : nat) : bool :=
  match v !! p, v !! q with
  | Some x, Some y => leb x y
  | _, _ => true
  end.

Fixpoint insert_at (v : list score) (p : nat) (l : list nat) : list nat :=
  match l with
  | [] => [p]
  | q :: l' => if le_at v p q then p :: l else q :: insert_at v p l'
  end.

(** One argsort to run the notebook with: insertion sort on the positions. *)
Definition insertion_argsort (v : list score) : list nat :=
  foldr (insert_at v) [] (seq 0 (length v)).
End Argsort.

(** [l[:k]] for a Python integer [k]: a negative [k] counts from the end. *)
Definition slice_to {A} (k : Z) (l : list A) : list A :=
  if decide (0 <= k) then take (Z.to_nat k) l
  else take (length l - Z.to_nat (- k)) l.

(** [range(a, b)] *)
Definition range (a b : Z) : list Z := seqZ a (b - a).

End Numpy.

(** ** Cell 50: [recommend] *)
Module Recommend.

Section Recommend.
Context {score meta : Type}.
Variable argsort : list score -> list nat.
(** One row of [model.predict([user, item, meta])] for the trained hybrid
    model, which scores each row on its own. *)
Variable predict : Z -> Z -> meta -> score.
Variable all_ratings : list Data.rating_row.
(** The columns [items["name"]] and [items["scaled_date"]], both under the
    item table's index. *)
Variable items_name : list (Z * Data.cell).
Variable items_scaled_date : list (Z * meta).

(** [list(all_ratings[all_ratings["user_id"]==user_id]["item_id"])] *)
Definition seen_movies (user_id : Z) : list Z :=
  Data.item_id <$> filter (fun r => Data.user_id r = user_id) all_ratings.

(** The first three statements of the function, for a given [max_item_id]. *)
Definition candidates (max_item_id user_id : Z) : list Z :=
  let item_ids := Numpy.range 1 max_item_id in
  let seen := seen_movies user_id in
  filter (fun x => x ∉ seen) item_ids.

(** [rating_preds]; [None] when a candidate has no row in the item table
    ([KeyError] in current pandas; older versions fill the gap with NaN). *)
Definition rating_preds (user_id : Z) (item_ids : list Z) : option (list score) :=
  items_meta ← Data.loc_all items_scaled_date item_ids;
  Some (zip_with (predict user_id) item_ids items_meta).

(** One element of the returned list comprehension. *)
Definition pair_for (preds : list score) (movie : nat) : option (Data.cell * score) :=
  n ← Data.loc items_name (Z.of_nat movie);
  p ← preds !! movie;
  Some (n, p).

Definition recommend (user_id : Z) (top_n : Z) : option (list (Data.cell * score)) :=
  max_item_id ← Data.column_max Data.item_id all_ratings;
  let item_ids := candidates max_item_id user_id in
  preds ← rating_preds user_id item_ids;
  let item_ids := reverse (argsort preds) in
  let rec_items := Numpy.slice_to top_n item_ids in
  mapM (pair_for preds) rec_items.
End Recommend.

(** A small catalogue to run [recommend] on: five movies, the scaled date
    of each being its id, and a model that predicts [10 * item + meta]. *)
Definition demo_names : list (Z * Data.cell) :=
  [(1, Data.Str "Toy Story (1995)"); (2, Data.Str "GoldenEye (1995)");
   (3, Data.Str "Four Rooms (1995)"); (4, Data.Str "Get Shorty (1995)");
   (5, Data.Str "Copycat (1995)")].

Definition demo_scaled_date : list (Z * Z) :=
  [(1, 1); (2, 2); (3, 3); (4, 4); (5, 5)].

Definition demo_predict (user item meta : Z) : Z := 10 * item + meta.

(** User 1 rated movie 1, user 2 rated movie 4: [max_item_id = 4]. *)
Definition two_ratings : list Data.rating_row :=
  [Data.Rating 1 1 5 0; Data.Rating 2 4 3 0].

(** User 1 rated movie 2, user 2 rated movie 5: [max_item_id = 5]. *)
Definition other_ratings : list Data.rating_row :=
  [Data.Rating 1 2 5 0; Data.Rating 2 5 3 0].

End Recommend.

(** ** Cell 26: the deep model of the exercise, and the shapes of the dense layers *)
Module Deep.
Import Keras.

Section Layers.
Context {F : Type}.
Variables add mul : F -> F -> F.
Variables relu tanh : F -> F.

(** What [Dense(units)] allocates behind an input of [in_dim] numbers: a
    kernel of [in_dim] rows of [units] numbers and a bias of [units]. *)
Definition dense_has_shape (in_dim units : nat) (layer : list (list F) * list F) : bool :=
  has_shape in_dim units layer.1 && (length layer.2 =? units)%nat.

(** The three dense layers of cell 46: 65 to 64 to 32 to 1. *)
Definition hybrid_dense_built (W : hybrid_weights) : bool :=
  dense_has_shape (2 * meta_embedding_size + 1) 64 (dense_1 W)
  && dense_has_shape 64 32 (dense_2 W)
  && dense_has_shape 32 1 (dense_3 W).

Record deep_weights := DeepWeights {
  d_user_embeddings : list (list F);
  d_item_embeddings : list (list F);
  d_dense_1 : list (list F) * list F;
  d_dense_2 : list (list F) * list F
}.

Definition deep_built (max_user_id max_item_id : Z) (W : deep_weights) : bool :=
  has_shape (Z.to_nat (max_user_id + 1)) embedding_size (d_user_embeddings W)
  && has_shape (Z.to_nat (max_item_id + 1)) embedding_size (d_item_embeddings W)
  && dense_has_shape (2 * embedding_size) 64 (d_dense_1 W)
  && dense_has_shape 64 2 (d_dense_2 W).

(** Cell 26 on one sample, as the notebook has it before the exercise is
    solved: [Dense(64, relu)] then [Dense(2, tanh)]. *)
Definition deep_model (W : deep_weights) (user item : list Z) : option (list F) :=
  user_embedding ← Embedding (d_user_embeddings W) user;
  item_embedding ← Embedding (d_item_embeddings W) item;
  let user_vecs := Flatten user_embedding in
  let item_vecs := Flatten item_embedding in
  let input_vecs := merge_concat [user_vecs; item_vecs] in
  let input_vecs := Dropout input_vecs in
  let x := Dense add mul (d_dense_1 W).1 (d_dense_1 W).2 relu input_vecs in
  Some (Dense add mul (d_dense_2 W).1 (d_dense_2 W).2 tanh x).
End Layers.

Definition demo_deep : deep_weights :=
  DeepWeights [replicate 30 1; replicate 30 2] [replicate 30 3; replicate 30 (-1)]
    (replicate 60 (replicate 64 1), replicate 64 0)
    (replicate 64 [1; -1], [0; 5]).

End Deep.

(** ** Cells 10 and 44: the columns handed to the models *)
Module Columns.

(** [ratings_train['user_id']], [ratings_train['item_id']],
    [ratings_train['rating']] (and the same of [ratings_test]). *)
Definition column {A} (col : Data.rating_row -> A) (part : list (nat * Data.rating_row))
  : list A :=
  col <$> part.*2.

(** [items["scaled_date"][item_id_train]]: one label lookup per row. *)
Definition item_meta {M} (scaled_date : list (Z * M)) (part : list (nat * Data.rating_row))
  : option (list M) :=
  Data.loc_all scaled_date (column Data.item_id part).

(** A cell that holds a value. *)
Definition filled (c : Data.cell) : Prop := c <> Data.NaN.

(** [max(items['parsed_date'])], [min(items['parsed_date'])]; an empty
    column raises. *)
Definition max_date (parsed : list Z) : option Z :=
  match parsed with
  | [] => None
  | d :: ds => Some (foldl Z.max d ds)
  end.

Definition min_date (parsed : list Z) : option Z :=
  match parsed with
  | [] => None
  | d :: ds => Some (foldl Z.min d ds)
  end.

End Columns.

(** * Properties *)

(** ** Cell 1 *)
Module SetupSpec.
Import Setup.

Lemma filename_value : ML_100K_FILENAME = "ml-100k.zip".
Proof. reflexivity. Qed.

Lemma exists_true (fs : gmap string node) p : exists_ fs p = true <-> is_Some (fs !! p).
Proof. unfold exists_. apply bool_decide_eq_true. Qed.

Lemma exists_false (fs : gmap string node) p : exists_ fs p = false <-> fs !! p = None.
Proof.
  unfold exists_. rewrite bool_decide_eq_false. split.
  - intros H. destruct (fs !! p) eqn:E; [exfalso; apply H; eauto | done].
  - intros -> [x Hx]. discriminate.
Qed.

(** Membership of an event in a literal trace. *)
Ltac in_trace :=
  cbn;
  first
    [ by repeat constructor
    | let H := fresh in
      intros H;
      repeat (apply elem_of_cons in H as [H | H]; [discriminate |]);
      by apply elem_of_nil in H ].

Section Cell.
Variable fetch : string -> option string.
Variable members : string -> option (list (string * node)).

Lemma download_step_trace fs :
  downloads (download_step fetch fs) <-> fs !! ML_100K_FILENAME = None.
Proof.
  unfold download_step, downloads.
  destruct (exists_ fs ML_100K_FILENAME) eqn:E.
  - apply exists_true in E. split.
    + intros (u & d & H). cbn in H. by apply elem_of_nil in H.
    + intros H. rewrite H in E. by destruct E.
  - apply exists_false in E. split; [done | intros _].
    exists ML_100K_URL, ML_100K_FILENAME.
    destruct (urlretrieve _ _ _ _); in_trace.
Qed.

Lemma download_step_no_extract fs a :
  Extract a ∉ out_trace (download_step fetch fs).
Proof.
  unfold download_step.
  destruct (exists_ fs ML_100K_FILENAME); [in_trace |].
  destruct (urlretrieve _ _ _ _); in_trace.
Qed.

(** The download writes the archive and nothing else. *)
Lemma download_step_frame fs p :
  p <> ML_100K_FILENAME ->
  out_fs (download_step fetch fs) !! p = fs !! p.
Proof.
  intros Hp. unfold download_step.
  destruct (exists_ fs ML_100K_FILENAME); [done |].
  unfold urlretrieve. destruct (fetch ML_100K_URL); cbn; [| done].
  by rewrite lookup_insert_ne.
Qed.

Lemma extract_step_trace fs :
  extracts (extract_step members fs) <-> fs !! ML_100K_FOLDER = None.
Proof.
  unfold extract_step, extracts.
  destruct (exists_ fs ML_100K_FOLDER) eqn:E.
  - apply exists_true in E. split.
    + intros (a & H). cbn in H. by apply elem_of_nil in H.
    + intros H. rewrite H in E. by destruct E.
  - apply exists_false in E. split; [done | intros _].
    exists ML_100K_FILENAME.
    destruct (extractall _ _ _); in_trace.
Qed.

Lemma extract_step_no_download fs u d :
  Download u d ∉ out_trace (extract_step members fs).
Proof.
  unfold extract_step.
  destruct (exists_ fs ML_100K_FOLDER); [in_trace |].
  destruct (extractall _ _ _); in_trace.
Qed.

(** C6: the archive is downloaded exactly when it is absent; an extraction
    happens only when the folder is absent (and then does happen, unless the
    download raised); when both the archive and the folder exist the cell
    does nothing at all: no output, no download, no extraction, and the
    working directory is the one it started from. *)
Theorem setup_only_when_absent (fs : gmap string node) :
  let o := setup fetch members fs in
  (downloads o <-> fs !! ML_100K_FILENAME = None) /\
  (extracts o -> fs !! ML_100K_FOLDER = None) /\
  (fs !! ML_100K_FOLDER = None ->
     out_status (download_step fetch fs) = Finished -> extracts o) /\
  (is_Some (fs !! ML_100K_FILENAME) -> is_Some (fs !! ML_100K_FOLDER) ->
     o = Outcome fs [] Finished).
Proof.
  cbn zeta. unfold setup.
  assert (Hne : ML_100K_FOLDER <> ML_100K_FILENAME) by (by vm_compute).
  pose proof (download_step_trace fs) as Hd.
  pose proof (download_step_frame fs ML_100K_FOLDER Hne) as Hfr.
  pose proof (extract_step_trace (out_fs (download_step fetch fs))) as He.
  rewrite Hfr in He.
  repeat split.
  - intros (u & d & H). apply Hd.
    destruct (out_status (download_step fetch fs)); [| by exists u, d].
    cbn in H. apply elem_of_app in H as [H | H]; [by exists u, d |].
    by apply extract_step_no_download in H.
  - intros H. apply Hd in H as (u & d & H). exists u, d.
    destruct (out_status (download_step fetch fs)); [| done].
    cbn. apply elem_of_app. by left.
  - intros (a & H).
    destruct (out_status (download_step fetch fs)).
    + cbn in H. apply elem_of_app in H as [H | H].
      * by apply download_step_no_extract in H.
      * apply He. by exists a.
    + by apply download_step_no_extract in H.
  - intros Hnone Hfin. rewrite Hfin.
    apply He in Hnone as (a & H). exists a. cbn. apply elem_of_app. by right.
  - intros Ha Hf. unfold download_step.
    apply exists_true in Ha. rewrite Ha. cbn.
    unfold extract_step. apply exists_true in Hf. rewrite Hf. done.
Qed.
End Cell.

End SetupSpec.

(** ** Cell 10 *)
Module SplitSpec.
Import Split.

Section Iloc.
Context {A : Type}.
Implicit Types (rows : list A) (indices : list nat).

Lemma iloc_inv rows indices out :
  iloc rows indices = Some out ->
  out.*1 = indices /\ Forall (fun p => rows !! p.1 = Some p.2) out.
Proof.
  unfold iloc. rewrite mapM_Some.
  induction 1 as [| i p indices out Hp _ [IH1 IH2]]; [by split |].
  destruct (rows !! i) as [r |] eqn:Hr; [| discriminate].
  cbn in Hp. simplify_eq. split; [by cbn; f_equal | by constructor].
Qed.

Lemma iloc_in_range rows indices :
  Forall (fun i => (i < length rows)%nat) indices ->
  is_Some (iloc rows indices).
Proof.
  intros H. unfold iloc. apply mapM_is_Some_2.
  eapply Forall_impl; [exact H |].
  intros i Hi. cbn. destruct (lookup_lt_is_Some_2 rows i Hi) as [r ->]. by eexists.
Qed.

End Iloc.

Lemma snd_imap_pair {A} (rows : list A) : (imap pair rows).*2 = rows.
Proof.
  apply list_eq. intros i.
  rewrite list_lookup_fmap, list_lookup_imap. by destruct (rows !! i).
Qed.

Lemma n_test_bounds n : (n <= 5 * n_test n < n + 5)%nat.
Proof.
  unfold n_test.
  pose proof (Nat.div_mod_eq (n + 4) 5) as E.
  pose proof (Nat.mod_upper_bound (n + 4) 5). lia.
Qed.

Lemma n_test_le n : (n_test n <= n)%nat.
Proof.
  unfold n_test. destruct n as [| n]; [done |].
  pose proof (Nat.div_mod_eq (S n + 4) 5) as E.
  pose proof (Nat.mod_upper_bound (S n + 4) 5). lia.
Qed.

Lemma reversed_permutation n : reversed n ≡ₚ seq 0 n.
Proof. unfold reversed. by rewrite reverse_Permutation. Qed.

Section Split.
Context {A : Type}.
Variable permutation : nat -> list nat.
Hypothesis permutation_spec : forall n, permutation n ≡ₚ seq 0 n.
Implicit Types (rows : list A).

Lemma split_indices n :
  take (n_train n) (drop (n_test n) (permutation n)) ++ take (n_test n) (permutation n)
  ≡ₚ seq 0 n.
Proof.
  assert (Hlen : length (permutation n) = n).
  { rewrite (Permutation_length (permutation_spec n)). apply length_seq. }
  rewrite (take_ge (drop _ _)).
  2:{ rewrite length_drop, Hlen. unfold n_train. lia. }
  rewrite Permutation_app_comm, take_drop. apply permutation_spec.
Qed.

Lemma split_returns rows :
  exists train test,
    train_test_split permutation rows = Some (train, test) /\
    train.*1 = take (n_train (length rows)) (drop (n_test (length rows)) (permutation (length rows))) /\
    test.*1 = take (n_test (length rows)) (permutation (length rows)).
Proof.
  unfold train_test_split.
  set (n := length rows).
  pose proof (split_indices n) as Hp.
  assert (Hall : forall i,
    i ∈ take (n_train n) (drop (n_test n) (permutation n)) ++ take (n_test n) (permutation n) ->
    (i < length rows)%nat).
  { intros i Hi. rewrite Hp in Hi. apply elem_of_seq in Hi. fold n. lia. }
  destruct (iloc_in_range rows (take (n_train n) (drop (n_test n) (permutation n))))
    as [train Htr].
  { apply Forall_forall. intros i Hi. apply Hall, elem_of_app. by left. }
  destruct (iloc_in_range rows (take (n_test n) (permutation n))) as [test Hte].
  { apply Forall_forall. intros i Hi. apply Hall, elem_of_app. by right. }
  exists train, test. rewrite Htr, Hte. cbn.
  split; [done |]. split; [by apply iloc_inv in Htr as [? _] | by apply iloc_inv in Hte as [? _]].
Qed.

Lemma split_labels rows train test :
  train_test_split permutation rows = Some (train, test) ->
  (train ++ test).*1 ≡ₚ seq 0 (length rows) /\
  Forall (fun p => rows !! p.1 = Some p.2) (train ++ test).
Proof.
  intros H. destruct (split_returns rows) as (tr & te & E & E1 & E2).
  rewrite H in E. simplify_eq. split.
  - rewrite fmap_app, E1, E2. apply split_indices.
  - unfold train_test_split in H.
    destruct (iloc rows (take _ (drop _ _))) as [tr' |] eqn:Ha; [| discriminate].
    destruct (iloc rows (take _ (permutation _))) as [te' |] eqn:Hb; [| discriminate].
    cbn in H. simplify_eq. apply Forall_app.
    split; [by apply iloc_inv in Ha as [_ ?] | by apply iloc_inv in Hb as [_ ?]].
Qed.

Lemma split_elem rows train test i r :
  train_test_split permutation rows = Some (train, test) ->
  (i, r) ∈ train ++ test <-> rows !! i = Some r.
Proof.
  intros H. destruct (split_labels _ _ _ H) as [Hl Hr]. split.
  - intros Hin. rewrite Forall_forall in Hr. exact (Hr _ Hin).
  - intros Hi.
    assert (Hin : i ∈ (train ++ test).*1).
    { rewrite Hl. apply elem_of_seq. apply lookup_lt_Some in Hi. lia. }
    apply list_elem_of_fmap in Hin as ([i' r'] & -> & Hin).
    rewrite Forall_forall in Hr. pose proof (Hr _ Hin) as E. cbn in *.
    by simplify_eq.
Qed.

(** The two parts together are the rows with their labels, in some order. *)
Lemma split_permutation rows :
  exists train test,
    train_test_split permutation rows = Some (train, test) /\
    NoDup ((train ++ test).*1) /\
    train ++ test ≡ₚ imap pair rows.
Proof.
  destruct (split_returns rows) as (train & test & E & _ & _).
  exists train, test. split; [exact E |].
  destruct (split_labels _ _ _ E) as [Hl Hr].
  assert (Hnd : NoDup ((train ++ test).*1)) by (rewrite Hl; apply NoDup_seq).
  split; [exact Hnd |].
  apply NoDup_Permutation.
  - by apply (NoDup_fmap_1 fst).
  - apply (NoDup_fmap_1 fst). rewrite fmap_imap.
    rewrite (imap_ext _ (fun i _ => i)) by done.
    rewrite (imap_seq_0 rows (fun i => i)), list_fmap_id. apply NoDup_seq.
  - intros [i r]. rewrite (split_elem rows train test i r E).
    rewrite elem_of_lookup_imap. split.
    + intros Hi. by exists i, r.
    + intros (i' & r' & Heq & Hi). by simplify_eq.
Qed.

(** C4 (amended): the split is a partition of the rows: every row, taken with
    its index label, is in exactly one of [ratings_train] and [ratings_test],
    nothing else is in them, and no label occurs twice.  [ratings_test] holds
    a fifth of the rows rounded up and [ratings_train] the rest: exactly 20%
    and 80% when the number of rows is a multiple of five. *)
Theorem train_test_split_partition rows :
  exists train test,
    train_test_split permutation rows = Some (train, test) /\
    (forall i r, rows !! i = Some r ->
       ((i, r) ∈ train /\ ((i, r) ∉ test)) \/ (((i, r) ∉ train) /\ (i, r) ∈ test)) /\
    (forall p, p ∈ train ++ test -> rows !! p.1 = Some p.2) /\
    NoDup ((train ++ test).*1) /\
    train ++ test ≡ₚ imap pair rows /\
    (length train + length test = length rows)%nat /\
    (length rows <= 5 * length test < length rows + 5)%nat /\
    ((length rows mod 5 = 0)%nat ->
       (5 * length test = length rows)%nat /\
       (5 * length train = 4 * length rows)%nat).
Proof.
  destruct (split_permutation rows) as (train & test & E & Hnd & Hperm).
  exists train, test. split; [exact E |].
  destruct (split_returns rows) as (train' & test' & E' & E1 & E2).
  rewrite E in E'. symmetry in E'. simplify_eq.
  destruct (split_labels _ _ _ E) as [Hl Hr].
  assert (Hlen : (length train + length test = length rows)%nat).
  { rewrite <- length_app, <- (length_fmap fst), (Permutation_length Hl).
    apply length_seq. }
  assert (Hte : length test = n_test (length rows)).
  { rewrite <- (length_fmap fst), E2, length_take.
    rewrite (Permutation_length (permutation_spec _)), length_seq.
    pose proof (n_test_le (length rows)). lia. }
  pose proof (n_test_bounds (length rows)) as Hb.
  repeat split.
  - intros i r Hi.
    assert (Hin : (i, r) ∈ train ++ test) by (by apply (split_elem rows)).
    rewrite fmap_app in Hnd. apply NoDup_app in Hnd as (_ & Hdis & _).
    apply elem_of_app in Hin as [Hin | Hin]; [left | right]; split; try done.
    + intros Hin'. apply (Hdis i).
      * apply list_elem_of_fmap. by exists (i, r).
      * apply list_elem_of_fmap. by exists (i, r).
    + intros Hin'. apply (Hdis i).
      * apply list_elem_of_fmap. by exists (i, r).
      * apply list_elem_of_fmap. by exists (i, r).
  - rewrite Forall_forall in Hr. exact Hr.
  - exact Hnd.
  - exact Hperm.
  - exact Hlen.
  - lia.
  - lia.
  - pose proof (Nat.div_mod_eq (length rows) 5). lia.
  - pose proof (Nat.div_mod_eq (length rows) 5). lia.
Qed.
End Split.

(** C4 as stated fails on a table of three rows: one of them is the test
    set, which is a third of the table, not a fifth. *)
Lemma split_of_three_rows :
  train_test_split reversed three_rows = Some (three_train, three_test) /\
  ~ ((5 * length three_test = length three_rows)%nat /\
     (5 * length three_train = 4 * length three_rows)%nat).
Proof. split; [reflexivity | cbn; lia]. Qed.

Lemma train_test_split_partition_witness :
  exists train test,
    train_test_split reversed [10; 20; 30; 40; 50] = Some (train, test) /\
    (forall i r, [10; 20; 30; 40; 50] !! i = Some r ->
       ((i, r) ∈ train /\ ((i, r) ∉ test)) \/ (((i, r) ∉ train) /\ (i, r) ∈ test)) /\
    (forall p, p ∈ train ++ test -> [10; 20; 30; 40; 50] !! p.1 = Some p.2) /\
    NoDup ((train ++ test).*1) /\
    train ++ test ≡ₚ imap pair [10; 20; 30; 40; 50] /\
    (length train + length test = 5)%nat /\
    (5 <= 5 * length test < 5 + 5)%nat /\
    ((5 mod 5 = 0)%nat ->
       (5 * length test = 5)%nat /\ (5 * length train = 4 * 5)%nat).
Proof.
  exact (train_test_split_partition reversed reversed_permutation [10; 20; 30; 40; 50]).
Defined.

Section Targets.
Variable permutation : nat -> list nat.
Hypothesis permutation_spec : forall n, permutation n ≡ₚ seq 0 n.

(** C7 (amended): no cell checks the range of a rating.  The training and
    test targets are exactly the rating fields of the loaded rows, so every
    target is an integer between 1 and 5 if and only if every rating of the
    loaded table is. *)
Theorem targets_are_the_loaded_ratings (all_ratings : list Data.rating_row) :
  exists ratings_train ratings_test,
    train_test_split permutation all_ratings = Some (ratings_train, ratings_test) /\
    (forall y, y ∈ (Data.rating ∘ snd <$> ratings_train ++ ratings_test)
               <-> y ∈ (Data.rating <$> all_ratings)) /\
    (Forall Data.in_stars all_ratings <->
     Forall (Data.in_stars ∘ snd) ratings_train /\ Forall (Data.in_stars ∘ snd) ratings_test).
Proof.
  destruct (split_permutation permutation permutation_spec all_ratings)
    as (train & test & E & _ & Hp).
  exists train, test. split; [exact E |].
  assert (Hsnd : (train ++ test).*2 ≡ₚ all_ratings).
  { rewrite Hp. by rewrite snd_imap_pair. }
  split.
  - intros y. rewrite list_fmap_compose, Hsnd. done.
  - rewrite <- Forall_app, <- Hsnd, Forall_fmap. done.
Qed.
End Targets.

Lemma targets_are_the_loaded_ratings_witness :
  exists ratings_train ratings_test,
    train_test_split reversed Recommend.two_ratings = Some (ratings_train, ratings_test) /\
    (forall y, y ∈ (Data.rating ∘ snd <$> ratings_train ++ ratings_test)
               <-> y ∈ (Data.rating <$> Recommend.two_ratings)) /\
    (Forall Data.in_stars Recommend.two_ratings <->
     Forall (Data.in_stars ∘ snd) ratings_train /\ Forall (Data.in_stars ∘ snd) ratings_test).
Proof.
  exact (targets_are_the_loaded_ratings reversed reversed_permutation Recommend.two_ratings).
Defined.

End SplitSpec.

(** ** Cell 44: centring and normalising *)
Module ScaleSpec.
Import Stdlib.Reals.Reals Stdlib.micromega.Lra.
Import Scale.
Local Open Scope R_scope.

Lemma sum_affine (a b : R) (xs : list R) :
  sum ((fun x => (x - a) / b) <$> xs) = (sum xs - INR (length xs) * a) / b.
Proof.
  induction xs as [| x xs IH].
  - cbn. unfold Rdiv. ring.
  - cbn [fmap list_fmap sum foldr length]. fold (sum ((fun x => (x - a) / b) <$> xs)).
    fold (sum xs). rewrite IH, S_INR. unfold Rdiv. ring.
Qed.

Lemma sum_scaled (f : R -> R) (c : R) (xs : list R) :
  sum ((fun x => f x * c) <$> xs) = sum (f <$> xs) * c.
Proof.
  induction xs as [| x xs IH]; cbn.
  - ring.
  - fold (sum ((fun x => f x * c) <$> xs)). fold (sum (f <$> xs)).
    rewrite IH. ring.
Qed.

Lemma sum_squares_nonneg (f : R -> R) (xs : list R) :
  0 <= sum ((fun x => f x * f x) <$> xs).
Proof.
  induction xs as [| x xs IH]; cbn; [lra |].
  fold (sum ((fun x => f x * f x) <$> xs)).
  pose proof (Rle_0_sqr (f x)) as H. unfold Rsqr in H. lra.
Qed.

Lemma length_pos_INR {A} (xs : list A) : xs <> [] -> 0 < INR (length xs).
Proof.
  intros H. destruct xs as [| x xs]; [done |].
  cbn [length]. rewrite S_INR. pose proof (pos_INR (length xs)). lra.
Qed.

Lemma mean_sum (ys : list R) : ys <> [] -> sum ys = mean ys * INR (length ys).
Proof.
  intros H. pose proof (length_pos_INR ys H). unfold mean. field. lra.
Qed.

Lemma var_nonneg (xs : list R) : xs <> [] -> 0 <= var xs.
Proof.
  intros H. unfold var, mean. rewrite length_fmap.
  apply Rmult_le_pos; [apply sum_squares_nonneg |].
  left. apply Rinv_0_lt_compat. by apply length_pos_INR.
Qed.

Lemma handle_zeros_nonzero (s : R) : handle_zeros_in_scale s <> 0.
Proof. unfold handle_zeros_in_scale. destruct (Req_dec_T s 0); lra. Qed.

(** The centred column sums to zero, whatever it is divided by. *)
Lemma centred_sum (b : R) (xs : list R) :
  xs <> [] -> sum ((fun x => (x - mean xs) / b) <$> xs) = 0.
Proof.
  intros H. rewrite sum_affine. unfold mean.
  pose proof (length_pos_INR xs H).
  replace (sum xs - INR (length xs) * (sum xs / INR (length xs))) with 0.
  - unfold Rdiv. ring.
  - field. lra.
Qed.

Lemma scale_returns (xs : list R) :
  xs <> [] ->
  scale xs = Some ((fun x => (x - mean xs) / handle_zeros_in_scale (std xs)) <$> xs).
Proof. intros H. by destruct xs. Qed.

Lemma scaled_mean (xs sc : list R) :
  scale xs = Some sc -> mean sc = 0.
Proof.
  intros H. destruct (decide (xs = [])) as [-> | Hne]; [discriminate |].
  rewrite scale_returns in H by done. simplify_eq.
  unfold mean at 1. rewrite centred_sum by done. unfold Rdiv. ring.
Qed.

Lemma scaled_var (xs sc : list R) :
  scale xs = Some sc -> var xs <> 0 -> var sc = 1.
Proof.
  intros H Hv. pose proof (scaled_mean _ _ H) as Hm.
  destruct (decide (xs = [])) as [-> | Hne]; [discriminate |].
  rewrite scale_returns in H by done.
  pose proof (var_nonneg xs Hne) as Hge.
  assert (Hs : 0 < std xs) by (apply sqrt_lt_R0; lra).
  assert (Hh : handle_zeros_in_scale (std xs) = std xs).
  { unfold handle_zeros_in_scale. destruct (Req_dec_T (std xs) 0); lra. }
  rewrite Hh in H.
  assert (Hsq : std xs * std xs = var xs) by (apply sqrt_sqrt; lra).
  unfold var at 1. rewrite Hm. injection H as <-.
  unfold mean at 1. rewrite !length_fmap. rewrite <- list_fmap_compose.
  rewrite (list_fmap_ext _
             (fun x => ((x - mean xs) * (x - mean xs)) * (/ std xs * / std xs)) xs).
  2:{ intros i x _. cbn. unfold Rdiv. field. lra. }
  rewrite (sum_scaled (fun x => (x - mean xs) * (x - mean xs))).
  pose proof (length_pos_INR xs Hne) as Hn.
  assert (E : sum ((fun x => (x - mean xs) * (x - mean xs)) <$> xs)
              = var xs * INR (length xs)).
  { unfold var. rewrite <- (length_fmap (fun x => (x - mean xs) * (x - mean xs)) xs).
    apply mean_sum. by destruct xs. }
  rewrite E, <- Hsq. field. lra.
Qed.

End ScaleSpec.

(** ** Cells 3, 5 and 44: what is loaded and what is parsed *)
Module ItemsSpec.
Import Stdlib.Reals.Reals.
Import PyStr Data.
Local Open Scope Z_scope.

Lemma length_app_str (a b : string) :
  String.length (a ++ b) = (String.length a + String.length b)%nat.
Proof. induction a as [| c a IH]; simpl; [done | by f_equal]. Qed.

Lemma substring_skip (pre s : string) (m : nat) :
  String.substring (String.length pre) m (pre ++ s) = String.substring 0 m s.
Proof. induction pre as [| c pre IH]; simpl; [done | exact IH]. Qed.

Lemma substring_all (s : string) : String.substring 0 (String.length s) s = s.
Proof. induction s as [| c s IH]; simpl; [done | by f_equal]. Qed.

Lemma suffix_app (n : nat) (pre s : string) :
  String.length s = n -> suffix n (pre ++ s) = s.
Proof.
  intros <-. unfold suffix, drop_str. rewrite length_app_str.
  replace (String.length pre + String.length s - String.length s)%nat
    with (String.length pre) by lia.
  replace (String.length pre + String.length s - String.length pre)%nat
    with (String.length s) by lia.
  rewrite substring_skip. apply substring_all.
Qed.

Lemma digit_of_code c d :
  digit_of c = Some d -> (48 <= nat_of_ascii c <= 57)%nat /\ d = Z.of_nat (nat_of_ascii c) - 48.
Proof.
  unfold digit_of. intros H.
  destruct (48 <=? nat_of_ascii c)%nat eqn:E1; [| discriminate].
  destruct (nat_of_ascii c <=? 57)%nat eqn:E2; [| discriminate].
  cbn in H. simplify_eq. apply Nat.leb_le in E1, E2. done.
Qed.

Lemma digit_not_space c d : digit_of c = Some d -> is_space c = false.
Proof.
  intros H. apply digit_of_code in H as [H _]. unfold is_space.
  repeat match goal with
  | |- context [(?a <=? ?b)%nat] => destruct (Nat.leb_spec a b)
  | |- context [(?a =? ?b)%nat] => destruct (Nat.eqb_spec a b)
  end; cbn; try done; lia.
Qed.
Lemma digit_range c d : digit_of c = Some d -> 0 <= d <= 9.
Proof. intros H. apply digit_of_code in H. lia. Qed.

Lemma digit_not_sign c d r :
  digit_of c = Some d ->
  match String c r with
  | String "-"%char r => Z.opp <$> digits r
  | String "+"%char r => digits r
  | t => digits t
  end = digits (String c r).
Proof.
  intros H. apply digit_of_code in H as [H _].
  destruct c as [[] [] [] [] [] [] [] []]; try reflexivity;
    exfalso; revert H; vm_compute; lia.
Qed.

Lemma rstrip_digit c d t :
  digit_of c = Some d -> rstrip t = t -> rstrip (String c t) = String c t.
Proof.
  intros H Ht. cbn. rewrite Ht, (digit_not_space _ _ H). by destruct t.
Qed.

Lemma int_four_digits c1 c2 c3 c4 d1 d2 d3 d4 :
  digit_of c1 = Some d1 -> digit_of c2 = Some d2 ->
  digit_of c3 = Some d3 -> digit_of c4 = Some d4 ->
  int (String c1 (String c2 (String c3 (String c4 EmptyString))))
  = Some (1000 * d1 + 100 * d2 + 10 * d3 + d4).
Proof.
  intros H1 H2 H3 H4. unfold int, strip.
  assert (Hl : lstrip (String c1 (String c2 (String c3 (String c4 EmptyString))))
               = String c1 (String c2 (String c3 (String c4 EmptyString)))).
  { cbn. by rewrite (digit_not_space _ _ H1). }
  rewrite Hl.
  rewrite (rstrip_digit c1 d1), (digit_not_sign c1 d1) by
    (try done; repeat (erewrite rstrip_digit; [| eassumption |]); done).
  cbn. rewrite H1, H2, H3, H4. f_equal. lia.
Qed.

Lemma parsed_date_four_digits pre c1 c2 c3 c4 d1 d2 d3 d4 :
  digit_of c1 = Some d1 -> digit_of c2 = Some d2 ->
  digit_of c3 = Some d3 -> digit_of c4 = Some d4 ->
  parsed_date (Str (pre ++ String c1 (String c2 (String c3 (String c4 EmptyString)))))
  = Some (1000 * d1 + 100 * d2 + 10 * d3 + d4).
Proof.
  intros H1 H2 H3 H4. unfold parsed_date.
  rewrite suffix_app by done. by apply int_four_digits.
Qed.

Lemma parsed_dates_lookup items ds :
  parsed_dates items = Some ds ->
  length ds = length items /\
  forall k label row, items !! k = Some (label, row) ->
    exists s, date row = Str s /\ ds !! k = int (suffix 4 s).
Proof.
  unfold parsed_dates. intros H. split; [symmetry; by eapply length_mapM |].
  apply mapM_Some in H. intros k label row Hk.
  destruct (Forall2_lookup_l _ _ _ _ _ H Hk) as (y & Hy & Hp). cbn in Hp.
  destruct (date row) as [| s | z] eqn:Hd; try discriminate.
  exists s. split; [done |]. cbn in Hp. by rewrite Hy, Hp.
Qed.

Lemma load_items_lookup raw k label row :
  raw !! k = Some (label, row) ->
  load_items raw !! k = Some (label, fillna_row (Str MISSING_DATE) row).
Proof.
  intros H. unfold load_items, fillna. by rewrite list_lookup_fmap, H.
Qed.

(** C7 as stated fails: the loader takes whatever integers the file holds. *)
Lemma seven_stars_are_loaded :
  read_ratings seven_stars = Some [Rating 1 1 7 881250949] /\
  ~ (1 <= rating (Rating 1 1 7 881250949) <= 5).
Proof. split; [reflexivity | cbn; lia]. Qed.

Example two_items_parsed : parsed_dates (load_items two_items) = Some [1995; 1997].
Proof. reflexivity. Qed.

(** C10: [parsed_date] is the integer that the last four characters of the
    date spell (for every string that ends in four digits, and row by row for
    the table); a row whose date is missing gets the date 01-Jan-1997, hence
    the year 1997, and the other dates are kept; [scaled_date] is the parsed
    column minus its mean, divided by its standard deviation (by one when
    that is zero): its mean is 0 and, unless all years are equal, its
    variance is 1. *)
Theorem release_year_feature (raw : list (Z * item_row)) :
  let items := load_items raw in
  (forall pre c1 c2 c3 c4 d1 d2 d3 d4,
     digit_of c1 = Some d1 -> digit_of c2 = Some d2 ->
     digit_of c3 = Some d3 -> digit_of c4 = Some d4 ->
     parsed_date (Str (pre ++ String c1 (String c2 (String c3 (String c4 EmptyString)))))
     = Some (1000 * d1 + 100 * d2 + 10 * d3 + d4)) /\
  (forall ds, parsed_dates items = Some ds ->
     length ds = length items /\
     forall k label row, items !! k = Some (label, row) ->
       exists s, date row = Str s /\ ds !! k = int (suffix 4 s)) /\
  (forall k label row, raw !! k = Some (label, row) ->
     exists row', items !! k = Some (label, row') /\
       match date row with
       | NaN => date row' = Str "01-Jan-1997" /\ parsed_date (date row') = Some 1997
       | c => date row' = c
       end) /\
  (forall ds, parsed_dates items = Some ds -> ds <> [] ->
     exists sc,
       Scale.scaled_date items = Some (zip (items.*1) sc) /\
       sc = (fun y => (IZR y - Scale.mean (IZR <$> ds))
                      / Scale.handle_zeros_in_scale (Scale.std (IZR <$> ds)))%R <$> ds /\
       Scale.mean sc = 0%R /\
       (Scale.var (IZR <$> ds) <> 0%R -> Scale.var sc = 1%R)).
Proof.
  cbn zeta. split; [| split; [| split]].
  - apply parsed_date_four_digits.
  - apply parsed_dates_lookup.
  - intros k label row Hk. eexists. split; [by apply load_items_lookup |].
    cbn. by destruct (date row).
  - intros ds Hds Hne.
    assert (Hne' : IZR <$> ds <> []) by (by destruct ds).
    pose proof (ScaleSpec.scale_returns _ Hne') as Hsc.
    eexists. split; [| split; [| split]].
    + unfold Scale.scaled_date. rewrite Hds. cbn. rewrite Hsc. cbn. reflexivity.
    + by rewrite <- list_fmap_compose.
    + by apply (ScaleSpec.scaled_mean (IZR <$> ds)).
    + by apply (ScaleSpec.scaled_var (IZR <$> ds)).
Qed.

End ItemsSpec.

(** ** Cells 14 and 46 *)
Module KerasSpec.
Import Keras.

Section Layers.
Context {F : Type}.
Variable zero : F.
Variables add mul : F -> F -> F.
Variable relu : F -> F.

Lemma has_shape_lookup (rows cols : nat) (W : list (list F)) (i : nat) :
  has_shape rows cols W = true -> (i < rows)%nat ->
  exists row, W !! i = Some row /\ length row = cols.
Proof.
  unfold has_shape. intros H Hi.
  apply andb_true_iff in H as [Hl Hr]. apply Nat.eqb_eq in Hl.
  destruct (lookup_lt_is_Some_2 W i) as [row Hrow]; [lia |].
  exists row. split; [done |].
  rewrite forallb_forall in Hr. apply Nat.eqb_eq, Hr.
  apply list_elem_of_In. by eapply list_elem_of_lookup_2.
Qed.

(** An id within the table selects its row. *)
Lemma Embedding_one (max_id : Z) (cols : nat) (W : list (list F)) (id : Z) :
  has_shape (Z.to_nat (max_id + 1)) cols W = true -> 0 <= id <= max_id ->
  exists row, W !! Z.to_nat id = Some row /\ length row = cols /\
              Embedding W [id] = Some [row].
Proof.
  intros H Hid.
  destruct (has_shape_lookup _ _ W (Z.to_nat id) H) as (row & Hrow & Hlen); [lia |].
  exists row. repeat split; try done.
  unfold Embedding. cbn. rewrite decide_True by lia. by rewrite Hrow.
Qed.

Lemma mf_model_one (max_user_id max_item_id : Z) (W : mf_weights) (u i : Z) :
  mf_built max_user_id max_item_id W = true ->
  0 <= u <= max_user_id -> 0 <= i <= max_item_id ->
  exists urow irow,
    user_embeddings W !! Z.to_nat u = Some urow /\
    item_embeddings W !! Z.to_nat i = Some irow /\
    length urow = 30%nat /\ length irow = 30%nat /\
    mf_model zero add mul W [u] [i] = Some [dot zero add mul urow irow].
Proof.
  unfold mf_built. intros H Hu Hi. apply andb_true_iff in H as [HU HI].
  destruct (Embedding_one _ _ _ u HU Hu) as (urow & E1 & L1 & X1).
  destruct (Embedding_one _ _ _ i HI Hi) as (irow & E2 & L2 & X2).
  exists urow, irow. repeat split; try done.
  unfold mf_model. rewrite X1, X2. cbn. by rewrite !app_nil_r.
Qed.

(** C3: on a batch of pairs within the id ranges, the matrix-factorisation
    model returns, for each pair, the dot product of the two 30-dimensional
    rows that the embedding tables store for the user and for the item. *)
Theorem mf_predict_is_dot_product (max_user_id max_item_id : Z) (W : mf_weights)
    (users items : list Z) :
  mf_built max_user_id max_item_id W = true ->
  length users = length items ->
  Forall (fun u => 0 <= u <= max_user_id) users ->
  Forall (fun i => 0 <= i <= max_item_id) items ->
  exists preds,
    mf_predict zero add mul W users items = Some preds /\
    length preds = length users /\
    forall k u i, users !! k = Some u -> items !! k = Some i ->
      exists urow irow,
        user_embeddings W !! Z.to_nat u = Some urow /\
        item_embeddings W !! Z.to_nat i = Some irow /\
        length urow = 30%nat /\ length irow = 30%nat /\
        preds !! k = Some [dot zero add mul urow irow].
Proof.
  intros HW Hlen Hu Hi. unfold mf_predict.
  assert (Hsome : is_Some (mapM (fun ui : Z * Z => mf_model zero add mul W [ui.1] [ui.2])
                             (zip users items))).
  { apply mapM_is_Some_2, Forall_forall. intros [u i] Hin.
    apply elem_of_zip_l in Hin as Hinu. apply elem_of_zip_r in Hin as Hini.
    rewrite Forall_forall in Hu, Hi.
    destruct (mf_model_one _ _ W u i HW (Hu _ Hinu) (Hi _ Hini))
      as (? & ? & _ & _ & _ & _ & E).
    change (is_Some (mf_model zero add mul W [u] [i])). rewrite E. by eexists. }
  destruct Hsome as [preds Hp]. exists preds. split; [exact Hp |].
  pose proof (length_mapM _ _ _ Hp) as Hl. rewrite length_zip in Hl. split; [lia |].
  intros k u i Hku Hki.
  rewrite Forall_forall in Hu, Hi.
  destruct (mf_model_one _ _ W u i HW) as (urow & irow & E1 & E2 & L1 & L2 & E).
  { apply Hu. by eapply list_elem_of_lookup_2. }
  { apply Hi. by eapply list_elem_of_lookup_2. }
  exists urow, irow. repeat split; try done.
  apply mapM_Some in Hp.
  assert (Hz : zip users items !! k = Some (u, i)).
  { rewrite lookup_zip_with. by rewrite Hku, Hki. }
  destruct (Forall2_lookup_l _ _ _ _ _ Hp Hz) as (y & Hy & Hf).
  cbn [fst snd] in Hf. rewrite E in Hf. by simplify_eq.
Qed.

(** C5: the metadata model is a function of three inputs (user id, item id,
    metadata scalar); on ids within range its first dense layer, and through
    it the prediction, is applied to the 65 numbers made of the user's
    32-dimensional row, then the item's, then the metadata scalar. *)
Theorem hybrid_model_inputs (max_user_id max_item_id : Z) (W : hybrid_weights)
    (u i : Z) (m : F) :
  hybrid_built max_user_id max_item_id W = true ->
  0 <= u <= max_user_id -> 0 <= i <= max_item_id ->
  exists urow irow,
    h_user_embeddings W !! Z.to_nat u = Some urow /\
    h_item_embeddings W !! Z.to_nat i = Some irow /\
    length urow = 32%nat /\ length irow = 32%nat /\
    length (urow ++ irow ++ [m]) = 65%nat /\
    hybrid_model add mul relu W [u] [i] [m]
    = Some (Dense add mul (dense_3 W).1 (dense_3 W).2 (fun v => v)
             (Dense add mul (dense_2 W).1 (dense_2 W).2 relu
               (Dropout
                 (Dense add mul (dense_1 W).1 (dense_1 W).2 relu
                   (urow ++ irow ++ [m]))))).
Proof.
  unfold hybrid_built. intros H Hu Hi. apply andb_true_iff in H as [HU HI].
  destruct (Embedding_one _ _ _ u HU Hu) as (urow & E1 & L1 & X1).
  destruct (Embedding_one _ _ _ i HI Hi) as (irow & E2 & L2 & X2).
  exists urow, irow. repeat split; try done.
  - rewrite !length_app, L1, L2. done.
  - unfold hybrid_model. rewrite X1, X2. cbn. by rewrite !app_nil_r.
Qed.
End Layers.

Lemma mf_predict_is_dot_product_witness :
  exists preds,
    mf_predict 0 Z.add Z.mul demo_mf [1; 0] [0; 1] = Some preds /\
    length preds = length [1; 0] /\
    forall k u i, [1; 0] !! k = Some u -> [0; 1] !! k = Some i ->
      exists urow irow,
        user_embeddings demo_mf !! Z.to_nat u = Some urow /\
        item_embeddings demo_mf !! Z.to_nat i = Some irow /\
        length urow = 30%nat /\ length irow = 30%nat /\
        preds !! k = Some [dot 0 Z.add Z.mul urow irow].
Proof.
  apply (mf_predict_is_dot_product 0 Z.add Z.mul 1 1 demo_mf [1; 0] [0; 1]).
  - reflexivity.
  - reflexivity.
  - repeat constructor; lia.
  - repeat constructor; lia.
Defined.

Example demo_mf_prediction :
  mf_predict 0 Z.add Z.mul demo_mf [1; 0] [0; 1] = Some [[180]; [-30]].
Proof. reflexivity. Qed.

Lemma hybrid_model_inputs_witness :
  exists urow irow,
    h_user_embeddings demo_hybrid !! Z.to_nat 1 = Some urow /\
    h_item_embeddings demo_hybrid !! Z.to_nat 0 = Some irow /\
    length urow = 32%nat /\ length irow = 32%nat /\
    length (urow ++ irow ++ [4]) = 65%nat /\
    hybrid_model Z.add Z.mul (Z.max 0) demo_hybrid [1] [0] [4]
    = Some (Dense Z.add Z.mul (dense_3 demo_hybrid).1 (dense_3 demo_hybrid).2 (fun v => v)
             (Dense Z.add Z.mul (dense_2 demo_hybrid).1 (dense_2 demo_hybrid).2 (Z.max 0)
               (Dropout
                 (Dense Z.add Z.mul (dense_1 demo_hybrid).1 (dense_1 demo_hybrid).2 (Z.max 0)
                   (urow ++ irow ++ [4]))))).
Proof.
  apply (hybrid_model_inputs Z.add Z.mul (Z.max 0) 1 1 demo_hybrid 1 0 4).
  - reflexivity.
  - lia.
  - lia.
Defined.

Example demo_hybrid_prediction :
  hybrid_model Z.add Z.mul (Z.max 0) demo_hybrid [1] [0] [4] = Some [671431].
Proof. reflexivity. Qed.

End KerasSpec.

(** ** [np.argsort]: the insertion sort meets the specification *)
Module NumpySpec.
Import Numpy.

Section Argsort.
Context {score : Type}.
Variable leb : score -> score -> bool.
Hypothesis leb_total : forall x y, leb x y = true \/ leb y x = true.
Hypothesis leb_trans : forall x y z, leb x y = true -> leb y z = true -> leb x z = true.
Variable v : list score.

Local Abbreviation before := (Numpy.before leb v).

Lemma insert_at_perm p l : insert_at leb v p l ≡ₚ p :: l.
Proof.
  induction l as [| q l IH]; cbn; [done |].
  destruct (le_at leb v p q); [done |].
  rewrite IH. apply Permutation_swap.
Qed.

Lemma insertion_argsort_perm : insertion_argsort leb v ≡ₚ seq 0 (length v).
Proof.
  unfold insertion_argsort.
  induction (seq 0 (length v)) as [| p l IH]; cbn; [done |].
  by rewrite insert_at_perm, IH.
Qed.

Lemma le_at_true p q : le_at leb v p q = true -> before p q.
Proof.
  unfold le_at, Numpy.before. intros H x y Hx Hy. by rewrite Hx, Hy in H.
Qed.

Lemma le_at_false p q : le_at leb v p q = false -> before q p.
Proof.
  unfold le_at, Numpy.before. intros H y x Hy Hx. rewrite Hx, Hy in H.
  destruct (leb_total x y) as [E | E]; [congruence | done].
Qed.

Lemma before_trans p q r :
  (q < length v)%nat -> before p q -> before q r -> before p r.
Proof.
  intros Hq H1 H2 x z Hx Hz.
  destruct (lookup_lt_is_Some_2 v q Hq) as [y Hy]. eauto.
Qed.

Lemma insert_at_sorted p l :
  Forall (fun q => (q < length v)%nat) l ->
  StronglySorted before l -> StronglySorted before (insert_at leb v p l).
Proof.
  intros Hr Hs. induction Hs as [| q l Hs IH Hq]; cbn.
  - repeat constructor.
  - apply Forall_cons in Hr as [Hq' Hr].
    destruct (le_at leb v p q) eqn:E.
    + constructor; [by constructor |]. constructor.
      * by apply le_at_true.
      * eapply Forall_impl; [exact Hq |]. intros r Hr'.
        eapply before_trans; [exact Hq' | by apply le_at_true | done].
    + constructor; [by apply IH |].
      rewrite insert_at_perm. constructor; [by apply le_at_false | done].
Qed.

Lemma insertion_argsort_sorted : StronglySorted before (insertion_argsort leb v).
Proof.
  unfold insertion_argsort.
  assert (H : Forall (fun q => (q < length v)%nat) (seq 0 (length v))).
  { apply Forall_forall. intros q Hq. apply elem_of_seq in Hq. lia. }
  induction (seq 0 (length v)) as [| p l IH]; cbn; [constructor |].
  apply Forall_cons in H as [Hp Hl].
  apply insert_at_sorted; [| by apply IH].
  eapply Forall_forall. intros q Hq.
  assert (Hq' : q ∈ l).
  { clear IH. revert Hq. induction l as [| r l IHl]; cbn; [done |].
    apply Forall_cons in Hl as [_ Hl]. rewrite insert_at_perm. intros Hq.
    apply elem_of_cons in Hq as [-> | Hq]; [by left | right; by apply IHl]. }
  rewrite Forall_forall in Hl. by apply Hl.
Qed.

Lemma sorted_lookup l i j p q :
  StronglySorted before l -> (i <= j)%nat ->
  l !! i = Some p -> l !! j = Some q -> before p q.
Proof.
  intros Hs. revert i j. induction Hs as [| r l Hs IH Hr]; intros i j Hij Hi Hj.
  - by rewrite lookup_nil in Hi.
  - destruct i as [| i], j as [| j]; cbn in Hi, Hj; simplify_eq.
    + intros x y Hx Hy. simplify_eq. destruct (leb_total x x); done.
    + rewrite Forall_forall in Hr. apply Hr. by eapply list_elem_of_lookup_2.
    + lia.
    + apply (IH i j); [lia | done | done].
Qed.

Lemma insertion_argsort_spec : is_argsort leb v (insertion_argsort leb v).
Proof.
  split; [apply insertion_argsort_perm |].
  intros i j p q x y Hij Hi Hj Hx Hy.
  by apply (sorted_lookup _ i j p q insertion_argsort_sorted Hij Hi Hj).
Qed.
End Argsort.

Lemma Zleb_total x y : (x <=? y) = true \/ (y <=? x) = true.
Proof. destruct (Z.leb_spec x y); [by left | right; apply Z.leb_le; lia]. Qed.

Lemma Zleb_trans x y z : (x <=? y) = true -> (y <=? z) = true -> (x <=? z) = true.
Proof. rewrite !Z.leb_le. lia. Qed.

Lemma insertion_argsort_Z (v : list Z) : is_argsort Z.leb v (insertion_argsort Z.leb v).
Proof. apply insertion_argsort_spec; [apply Zleb_total | apply Zleb_trans]. Qed.

End NumpySpec.

(** ** Cell 38 *)
Module SimilaritySpec.
Import Similarity.

(** C2 fails on the notebook's cell: the three functions are placeholders.
    [cosine] and [euclidean_distances] return the constant 0. and
    [most_similar] returns the names of the items labelled 1, 2 and 3 for
    every [idx] and every [top_n]: three names, not [top_n], and chosen
    without looking at any embedding. *)
Theorem most_similar_ignores_its_arguments {F : Type} (zero : F)
    (items : list (Z * Data.item_row)) (x y : list F) (idx top_n : Z) :
  cosine zero x y = zero /\
  euclidean_distances zero x = zero /\
  most_similar items idx top_n = most_similar items 1 0 /\
  (forall names, most_similar items idx top_n = Some names ->
     length names = 3%nat /\
     forall k n, names !! k = Some n ->
       exists row, Data.loc items (Z.of_nat k + 1) = Some row /\ Data.name row = n).
Proof.
  split; [done |]. split; [done |]. split; [done |].
  intros names H. unfold most_similar, Data.loc_all in H. split.
  - apply length_mapM in H. by rewrite <- H.
  - intros k n Hk. apply mapM_Some in H.
    destruct (Forall2_lookup_r _ _ _ _ _ H Hk) as (label & Hl & Hn).
    assert (label = Z.of_nat k + 1) as ->.
    { destruct k as [| [| [| k]]]; cbn in Hl; by simplify_eq. }
    clear H Hl Hk. induction items as [| [l r] its IH]; cbn in *; [done |].
    destruct (l =? Z.of_nat k + 1); [by simplify_eq; eexists | by apply IH].
Qed.

Example most_similar_of_four :
  most_similar four_items 4 1
  = Some [Data.Str "Toy Story (1995)"; Data.Str "GoldenEye (1995)";
          Data.Str "Four Rooms (1995)"].
Proof. reflexivity. Qed.

End SimilaritySpec.

(** ** Cell 50 *)
Module RecommendSpec.
Import Data Numpy Recommend.

(** A kept element of an increasing range is at least as far from the start
    as its position. *)
Lemma filter_seqZ_lookup (P : Z -> Prop) {Pdec : forall x, Decision (P x)}
    (len : nat) (a : Z) (p : nat) (x : Z) :
  filter P (seqZ a (Z.of_nat len)) !! p = Some x -> a + Z.of_nat p <= x.
Proof.
  revert a p. induction len as [| len IH]; intros a p H.
  - rewrite seqZ_nil in H by (cbn; lia). by rewrite filter_nil, lookup_nil in H.
  - rewrite seqZ_cons in H by lia.
    replace (Z.pred (Z.of_nat (S len))) with (Z.of_nat len) in H by lia.
    rewrite filter_cons in H. destruct (decide (P a)).
    + destruct p as [| p]; cbn in H; [simplify_eq; lia |].
      apply IH in H. lia.
    + apply IH in H. lia.
Qed.

Lemma loc_elem {A} (s : list (Z * A)) label x :
  loc s label = Some x -> (label, x) ∈ s.
Proof.
  induction s as [| [l y] s IH]; cbn; [done |].
  destruct (Z.eqb_spec l label) as [-> | Hne]; intros H.
  - simplify_eq. by left.
  - right. by apply IH.
Qed.

Lemma column_max_ge (col : rating_row -> Z) rows m r :
  column_max col rows = Some m -> r ∈ rows -> col r <= m.
Proof.
  destruct rows as [| r0 rows]; [done |]. cbn. intros H Hr. simplify_eq.
  assert (G : forall acc, acc <= foldl (fun m x => Z.max m (col x)) acc rows /\
            forall r, r ∈ rows -> col r <= foldl (fun m x => Z.max m (col x)) acc rows).
  { clear Hr. induction rows as [| r1 rows IH]; intros acc; cbn.
    - split; [lia | intros ? Hx; by apply elem_of_nil in Hx].
    - destruct (IH (Z.max acc (col r1))) as [H1 H2]. split; [lia |].
      intros r' Hr'. apply elem_of_cons in Hr' as [-> | Hr']; [lia | by apply H2]. }
  destruct (G (col r0)) as [H1 H2].
  apply elem_of_cons in Hr as [-> | Hr]; [done | by apply H2].
Qed.

Section Recommend.
Context {score meta : Type}.
Variable argsort : list score -> list nat.
Variable predict : Z -> Z -> meta -> score.
Variable all_ratings : list rating_row.
Variable items_name : list (Z * cell).
Variable items_scaled_date : list (Z * meta).

Lemma candidates_elem max_item_id user_id x :
  x ∈ candidates all_ratings max_item_id user_id <->
  1 <= x <= max_item_id - 1 /\ x ∉ seen_movies all_ratings user_id.
Proof.
  unfold candidates, range. rewrite list_elem_of_filter, elem_of_seqZ.
  split; intros [? ?]; split; try done; lia.
Qed.

Lemma candidates_lookup max_item_id user_id p x :
  candidates all_ratings max_item_id user_id !! p = Some x -> Z.of_nat p < x.
Proof.
  unfold candidates, range. intros H.
  destruct (decide (0 <= max_item_id - 1)) as [Hm | Hm].
  - rewrite <- (Z2Nat.id (max_item_id - 1)) in H by done.
    apply filter_seqZ_lookup in H. lia.
  - rewrite seqZ_nil in H by lia. by rewrite filter_nil, lookup_nil in H.
Qed.

Lemma rating_preds_inv user_id item_ids (preds : list score) :
  rating_preds predict items_scaled_date user_id item_ids = Some preds ->
  length preds = length item_ids /\
  forall p s, preds !! p = Some s ->
    exists item m, item_ids !! p = Some item /\
                   loc items_scaled_date item = Some m /\
                   s = predict user_id item m.
Proof.
  unfold rating_preds, loc_all. intros H.
  destruct (mapM (loc items_scaled_date) item_ids) as [metas |] eqn:E; [| done].
  cbn in H. simplify_eq. pose proof (length_mapM _ _ _ E) as Hl.
  apply mapM_Some in E. split.
  - rewrite length_zip_with. lia.
  - intros p s Hs. apply lookup_zip_with_Some in Hs as (item & m & -> & Hi & Hm).
    exists item, m. repeat split; try done.
    destruct (Forall2_lookup_l _ _ _ _ _ E Hi) as (m' & Hm' & Hloc).
    by simplify_eq.
Qed.

Lemma pairs_inv (preds : list score) (rec_items : list nat)
    (res : list (cell * score)) k n s :
  mapM (pair_for items_name preds) rec_items = Some res ->
  res !! k = Some (n, s) ->
  exists movie, rec_items !! k = Some movie /\
                loc items_name (Z.of_nat movie) = Some n /\
                preds !! movie = Some s.
Proof.
  intros H Hk. apply mapM_Some in H.
  destruct (Forall2_lookup_r _ _ _ _ _ H Hk) as (movie & Hm & Hp).
  exists movie. split; [done |]. unfold pair_for in Hp.
  destruct (loc items_name (Z.of_nat movie)) as [n' |]; [| done]. cbn in Hp.
  destruct (preds !! movie) as [s' |]; [| done]. cbn in Hp. by simplify_eq.
Qed.

(** Where each returned pair comes from. *)
Lemma recommend_inv user_id top_n (res : list (cell * score)) k n s :
  recommend argsort predict all_ratings items_name items_scaled_date user_id top_n
    = Some res ->
  res !! k = Some (n, s) ->
  exists max_item_id preds movie item m,
    column_max item_id all_ratings = Some max_item_id /\
    rating_preds predict items_scaled_date user_id
      (candidates all_ratings max_item_id user_id) = Some preds /\
    slice_to top_n (reverse (argsort preds)) !! k = Some movie /\
    candidates all_ratings max_item_id user_id !! movie = Some item /\
    loc items_scaled_date item = Some m /\
    preds !! movie = Some s /\
    s = predict user_id item m /\
    loc items_name (Z.of_nat movie) = Some n.
Proof.
  unfold recommend. intros H Hk.
  destruct (column_max item_id all_ratings) as [max_item_id |]; [| done]. cbn in H.
  destruct (rating_preds _ _ _ _) as [preds |] eqn:E; [| done]. cbn in H.
  destruct (pairs_inv _ _ _ _ _ _ H Hk) as (movie & Hm & Hn & Hs).
  destruct (rating_preds_inv _ _ _ E) as [_ Hp].
  destruct (Hp _ _ Hs) as (item & m & Hi & Hl & ->).
  by exists max_item_id, preds, movie, item, m.
Qed.

Lemma slice_to_lookup {A} (top_n : Z) (l : list A) i x :
  slice_to top_n l !! i = Some x -> l !! i = Some x.
Proof.
  unfold slice_to. destruct (decide (0 <= top_n)); intros H;
    by apply lookup_take_Some in H as [? _].
Qed.

(** What does hold of the returned list: it has at most [top_n] pairs when
    [top_n] is not negative, and its ratings never increase. *)
Lemma recommend_length user_id top_n (res : list (cell * score)) :
  0 <= top_n ->
  recommend argsort predict all_ratings items_name items_scaled_date user_id top_n
    = Some res ->
  Z.of_nat (length res) <= top_n.
Proof.
  unfold recommend. intros Hn H.
  destruct (column_max item_id all_ratings) as [max_item_id |]; [| done]. cbn in H.
  destruct (rating_preds _ _ _ _) as [preds |]; [| done]. cbn in H.
  apply length_mapM in H. rewrite <- H. unfold slice_to.
  rewrite decide_True by done. rewrite length_take. lia.
Qed.

(** X13: the ratings of the returned pairs never increase down the list,
    whichever way [np.argsort] orders equal ratings. *)
Lemma recommend_ranked (leb : score -> score -> bool) user_id top_n
    (res : list (cell * score)) k1 k2 n1 s1 n2 s2 :
  (forall v, is_argsort leb v (argsort v)) ->
  recommend argsort predict all_ratings items_name items_scaled_date user_id top_n
    = Some res ->
  (k1 <= k2)%nat -> res !! k1 = Some (n1, s1) -> res !! k2 = Some (n2, s2) ->
  leb s2 s1 = true.
Proof.
  intros Hspec H Hk H1 H2.
  destruct (recommend_inv _ _ _ _ _ _ H H1)
    as (mx & preds & movie1 & _ & _ & Emx & Epr & Hm1 & _ & _ & Hs1 & _).
  destruct (recommend_inv _ _ _ _ _ _ H H2)
    as (mx' & preds' & movie2 & _ & _ & Emx' & Epr' & Hm2 & _ & _ & Hs2 & _).
  rewrite Emx in Emx'. injection Emx' as <-.
  rewrite Epr in Epr'. injection Epr' as <-.
  apply slice_to_lookup, reverse_lookup_Some in Hm1 as [Hm1 Hl1].
  apply slice_to_lookup, reverse_lookup_Some in Hm2 as [Hm2 Hl2].
  destruct (Hspec preds) as [_ Hsorted].
  eapply (Hsorted _ _ movie2 movie1); [| exact Hm2 | exact Hm1 | exact Hs2 | exact Hs1].
  lia.
Qed.

(** C1 fails on its last clause, for every input: the pair returned at any
    rank carries the rating predicted for the candidate at some position
    [movie] of the candidate array, but its name is looked up under the
    label [movie] itself, and that label is always smaller than the id of
    the candidate that was scored. *)
Theorem recommend_names_a_different_item user_id top_n
    (res : list (cell * score)) k n s :
  recommend argsort predict all_ratings items_name items_scaled_date user_id top_n
    = Some res ->
  res !! k = Some (n, s) ->
  exists max_item_id movie item m,
    column_max item_id all_ratings = Some max_item_id /\
    candidates all_ratings max_item_id user_id !! movie = Some item /\
    loc items_scaled_date item = Some m /\
    s = predict user_id item m /\
    loc items_name (Z.of_nat movie) = Some n /\
    Z.of_nat movie < item.
Proof.
  intros H Hk.
  destruct (recommend_inv _ _ _ _ _ _ H Hk)
    as (mx & preds & movie & item & m & Emx & _ & _ & Hc & Hl & _ & Hs & Hn).
  exists mx, movie, item, m. repeat split; try done.
  by eapply candidates_lookup.
Qed.

(** C9: the ids that are considered at all are exactly 1 .. max_item_id - 1,
    and the candidates are those of them the user has not rated; so
    [max_item_id] is never a candidate, and every returned pair carries the
    rating of an item below [max_item_id] and a name looked up under a label
    below [max_item_id]. *)
Theorem max_item_id_is_never_a_candidate user_id max_item_id :
  column_max item_id all_ratings = Some max_item_id ->
  (forall x, x ∈ range 1 max_item_id <-> 1 <= x <= max_item_id - 1) /\
  (forall x, x ∈ candidates all_ratings max_item_id user_id <->
             1 <= x <= max_item_id - 1 /\ x ∉ seen_movies all_ratings user_id) /\
  (max_item_id ∉ candidates all_ratings max_item_id user_id) /\
  forall top_n (res : list (cell * score)) k n s,
    recommend argsort predict all_ratings items_name items_scaled_date user_id top_n
      = Some res ->
    res !! k = Some (n, s) ->
    exists movie item m,
      candidates all_ratings max_item_id user_id !! movie = Some item /\
      loc items_scaled_date item = Some m /\
      s = predict user_id item m /\
      loc items_name (Z.of_nat movie) = Some n /\
      item < max_item_id /\ Z.of_nat movie < max_item_id.
Proof.
  intros Hmax. split; [| split; [| split]].
  - intros x. unfold range. rewrite elem_of_seqZ. lia.
  - apply candidates_elem.
  - rewrite candidates_elem. lia.
  - intros top_n res k n s H Hk.
    destruct (recommend_inv _ _ _ _ _ _ H Hk)
      as (mx & preds & movie & item & m & Emx & _ & _ & Hc & Hl & _ & Hs & Hn).
    rewrite Hmax in Emx. simplify_eq.
    exists movie, item, m. repeat split; try done.
    + assert (Hin : item ∈ candidates all_ratings mx user_id)
        by (by eapply list_elem_of_lookup_2).
      apply candidates_elem in Hin. lia.
    + pose proof (candidates_lookup _ _ _ _ Hc) as Hlt.
      assert (Hin : item ∈ candidates all_ratings mx user_id)
        by (by eapply list_elem_of_lookup_2).
      apply candidates_elem in Hin. lia.
Qed.
End Recommend.

Example recommend_two_of_three :
  recommend (insertion_argsort Z.leb) demo_predict other_ratings demo_names
    demo_scaled_date 1 2
  = Some [(Str "GoldenEye (1995)", 44); (Str "Toy Story (1995)", 33)].
Proof. reflexivity. Qed.

(** Asking for all three candidates reaches position 0, a label that the
    item table does not have. *)
Example recommend_three_of_three :
  recommend (insertion_argsort Z.leb) demo_predict other_ratings demo_names
    demo_scaled_date 1 3 = None.
Proof. reflexivity. Qed.

Lemma recommend_names_a_different_item_witness :
  exists max_item_id movie item m,
    column_max item_id other_ratings = Some max_item_id /\
    candidates other_ratings max_item_id 1 !! movie = Some item /\
    loc demo_scaled_date item = Some m /\
    44 = demo_predict 1 item m /\
    loc demo_names (Z.of_nat movie) = Some (Str "GoldenEye (1995)") /\
    Z.of_nat movie < item.
Proof.
  apply (recommend_names_a_different_item (insertion_argsort Z.leb) demo_predict
           other_ratings demo_names demo_scaled_date 1 2
           [(Str "GoldenEye (1995)", 44); (Str "Toy Story (1995)", 33)] 0).
  - reflexivity.
  - reflexivity.
Defined.

Lemma max_item_id_is_never_a_candidate_witness :
  (forall x, x ∈ range 1 5 <-> 1 <= x <= 5 - 1) /\
  (forall x, x ∈ candidates other_ratings 5 1 <->
             1 <= x <= 5 - 1 /\ x ∉ seen_movies other_ratings 1) /\
  (5 ∉ candidates other_ratings 5 1) /\
  forall top_n (res : list (cell * Z)) k n s,
    recommend (insertion_argsort Z.leb) demo_predict other_ratings demo_names
      demo_scaled_date 1 top_n = Some res ->
    res !! k = Some (n, s) ->
    exists movie item m,
      candidates other_ratings 5 1 !! movie = Some item /\
      loc demo_scaled_date item = Some m /\
      s = demo_predict 1 item m /\
      loc demo_names (Z.of_nat movie) = Some n /\
      item < 5 /\ Z.of_nat movie < 5.
Proof.
  apply (max_item_id_is_never_a_candidate (insertion_argsort Z.leb) demo_predict
           other_ratings demo_names demo_scaled_date 1 5).
  reflexivity.
Defined.

(** C8 fails on the notebook's function.  User 1 has rated movie 1 only;
    the candidates are movies 2 and 3, movie 3 gets the higher rating, and
    the one recommendation returned is the name of movie 1, the movie the
    user has rated, whichever way [np.argsort] breaks ties. *)
Theorem recommend_returns_a_seen_movie (argsort : list Z -> list nat) :
  (forall v, is_argsort Z.leb v (argsort v)) ->
  recommend argsort demo_predict two_ratings demo_names demo_scaled_date 1 1
    = Some [(Str "Toy Story (1995)", 33)] /\
  (forall label, loc demo_names label = Some (Str "Toy Story (1995)") ->
                 label ∈ seen_movies two_ratings 1).
Proof.
  intros Hspec. split.
  - assert (Hl : argsort [22; 33] = [0; 1]%nat).
    { destruct (Hspec [22; 33]) as [Hp Hs]. cbn in Hp.
      symmetry in Hp. apply Permutation_length_2_inv in Hp as [Hp | Hp]; [done |].
      exfalso. specialize (Hs 0%nat 1%nat 1%nat 0%nat 33 22).
      rewrite Hp in Hs. cbn in Hs. discriminate Hs; [lia | done ..]. }
    change (recommend argsort demo_predict two_ratings demo_names demo_scaled_date 1 1)
      with (mapM (pair_for demo_names [22; 33])
              (slice_to 1 (reverse (argsort [22; 33])))).
    rewrite Hl. reflexivity.
  - intros label H. apply loc_elem in H.
    assert (label = 1) as ->.
    { unfold demo_names in H.
      repeat (apply elem_of_cons in H as [H | H]; [by simplify_eq |]).
      by apply elem_of_nil in H. }
    vm_compute. by left.
Qed.

Lemma recommend_returns_a_seen_movie_witness :
  recommend (insertion_argsort Z.leb) demo_predict two_ratings demo_names
    demo_scaled_date 1 1
    = Some [(Str "Toy Story (1995)", 33)] /\
  (forall label, loc demo_names label = Some (Str "Toy Story (1995)") ->
                 label ∈ seen_movies two_ratings 1).
Proof.
  apply (recommend_returns_a_seen_movie (insertion_argsort Z.leb)).
  apply NumpySpec.insertion_argsort_Z.
Defined.

End RecommendSpec.

(** * Further properties of the cells *)

(** ** Cell 1: what a run leaves behind *)
Module SetupMore.
Import Setup.

(** The part after the last separator holds no separator, and the two parts
    rebuild the string. *)
Lemma rsplit_last_Some (sep : ascii) (s a b : string) :
  PyStr.rsplit_last sep s = Some (a, b) ->
  s = (a ++ String sep b)%string /\ PyStr.rsplit_last sep b = None.
Proof.
  revert a b. induction s as [| c s IH]; intros a b H; [done |].
  cbn in H. destruct (PyStr.rsplit_last sep s) as [[a' b'] |] eqn:E.
  - injection H as <- <-. destruct (IH a' b' eq_refl) as [-> Hb]. by split.
  - destruct (Ascii.eqb_spec c sep) as [-> | Hne]; [| done].
    injection H as <- <-. by split.
Qed.

Lemma rsplit_last_None (sep : ascii) (s : string) :
  PyStr.rsplit_last sep s = None <-> ~ In sep (list_ascii_of_string s).
Proof.
  induction s as [| c s IH]; cbn.
  - split; [by intros _ [] | done].
  - destruct (PyStr.rsplit_last sep s) as [[a b] |] eqn:E.
    + split; [done |]. intros H. exfalso.
      assert (Hn : @None (string * string) = None) by done.
      destruct IH as [_ IH]. discriminate IH. intros Hin. apply H. by right.
    + destruct (Ascii.eqb_spec c sep) as [-> | Hne].
      * split; [done |]. intros H. exfalso. apply H. by left.
      * split; [| done]. intros _ [Hc | Hin]; [done |].
        destruct IH as [IH _]. by apply IH.
Qed.

(** X1: [s.rsplit(sep, 1)] either finds no separator and returns the string
    alone, or cuts it at the last separator: the two parts joined by the
    separator give the string back and the second part holds no separator.
    So the archive's file name is the part of the URL after its last slash. *)
Theorem rsplit1_cuts_at_last_separator (sep : ascii) (s : string) :
  (~ In sep (list_ascii_of_string s) /\ PyStr.rsplit1 sep s = [s]) \/
  (exists a b, PyStr.rsplit1 sep s = [a; b] /\
               s = (a ++ String sep b)%string /\
               ~ In sep (list_ascii_of_string b)).
Proof.
  unfold PyStr.rsplit1.
  destruct (PyStr.rsplit_last sep s) as [[a b] |] eqn:E.
  - right. exists a, b. apply rsplit_last_Some in E as [-> Hb].
    split; [done |]. split; [done |]. by apply rsplit_last_None.
  - left. split; [by apply rsplit_last_None | done].
Qed.

Section Cell.
Variable fetch : string -> option string.
Variable members : string -> option (list (string * node)).

Lemma extracted_keeps (ms : list (string * node)) (fs : gmap string node) p :
  is_Some (fs !! p) ->
  is_Some (foldl (fun m e => <[e.1 := e.2]> m) fs ms !! p).
Proof.
  revert fs. induction ms as [| [q n] ms IH]; intros fs H; [done |].
  cbn. apply IH. destruct (decide (q = p)) as [-> | Hne].
  - rewrite lookup_insert_eq. by eexists.
  - by rewrite lookup_insert_ne.
Qed.



Lemma extract_step_keeps fs p :
  is_Some (fs !! p) -> is_Some (out_fs (extract_step members fs) !! p).
Proof.
  intros H. unfold extract_step.
  destruct (exists_ fs ML_100K_FOLDER); [done |].
  unfold extractall. destruct (fs !! ML_100K_FILENAME) as [[c |] |]; cbn; try done.
  destruct (members c) as [ms |]; cbn; [| done]. by apply extracted_keeps.
Qed.



Lemma download_step_finished fs :
  out_status (download_step fetch fs) = Finished ->
  is_Some (out_fs (download_step fetch fs) !! ML_100K_FILENAME).
Proof.
  unfold download_step.
  destruct (exists_ fs ML_100K_FILENAME) eqn:E.
  - intros _. by apply SetupSpec.exists_true.
  - unfold urlretrieve. destruct (fetch ML_100K_URL); cbn; [| done].
    intros _. rewrite lookup_insert_eq. by eexists.
Qed.

Lemma setup_downloads fs :
  downloads (setup fetch members fs) -> fs !! ML_100K_FILENAME = None.
Proof.
  intros (u & d & H). apply (SetupSpec.download_step_trace fetch fs).
  unfold setup in H. destruct (out_status (download_step fetch fs)); [| by exists u, d].
  cbn in H. apply elem_of_app in H as [H | H]; [by exists u, d |].
  by apply SetupSpec.extract_step_no_download in H.
Qed.

(** X2: a run that finishes leaves the archive in the working directory, so
    running the cell again never downloads a second time. *)
Theorem finished_run_is_not_repeated (fs : gmap string node) :
  out_status (setup fetch members fs) = Finished ->
  is_Some (out_fs (setup fetch members fs) !! ML_100K_FILENAME) /\
  ~ downloads (setup fetch members (out_fs (setup fetch members fs))).
Proof.
  intros Hfin.
  assert (Ha : is_Some (out_fs (setup fetch members fs) !! ML_100K_FILENAME)).
  { unfold setup in *.
    destruct (out_status (download_step fetch fs)) eqn:E; [| by rewrite E in Hfin].
    cbn. by apply extract_step_keeps, download_step_finished. }
  split; [exact Ha |].
  intros Hd. apply setup_downloads in Hd. rewrite Hd in Ha. by destruct Ha.
Qed.

End Cell.

End SetupMore.

Module SetupRuns.
Import Setup.

Lemma finished_run_is_not_repeated_witness :
  is_Some (out_fs (setup (fun _ => Some "PK"%string)
                         (fun _ => Some [("ml-100k"%string, Dir)]) ∅)
             !! ML_100K_FILENAME) /\
  ~ downloads
      (setup (fun _ => Some "PK"%string) (fun _ => Some [("ml-100k"%string, Dir)])
         (out_fs (setup (fun _ => Some "PK"%string)
                        (fun _ => Some [("ml-100k"%string, Dir)]) ∅))).
Proof.
  apply (SetupMore.finished_run_is_not_repeated
           (fun _ => Some "PK"%string) (fun _ => Some [("ml-100k"%string, Dir)]) ∅).
  reflexivity.
Defined.

End SetupRuns.

(** ** Cells 5, 8, 9 and 44: the tables *)
Module ItemsMore.
Import PyStr Data Columns.

Lemma fillna_cell_filled (v c : cell) : filled v -> filled (fillna_cell v c).
Proof. intros Hv. by destruct c. Qed.

Lemma fillna_cell_idem (v c : cell) : fillna_cell v (fillna_cell v c) = fillna_cell v c \/ v = NaN.
Proof. destruct c; cbn; [destruct v; auto | auto | auto]. Qed.

(** X4: after cell 5 no cell of the item table is missing, in any column;
    the rows keep their index labels and their order, and filling a second
    time changes nothing. *)
Theorem load_items_leaves_nothing_missing (raw : list (Z * item_row)) :
  (load_items raw).*1 = raw.*1 /\
  (forall label row, (label, row) ∈ load_items raw ->
     filled (name row) /\ filled (date row) /\ filled (genre row) /\
     filled (url row) /\ Forall filled (f row)) /\
  load_items (load_items raw) = load_items raw.
Proof.
  unfold load_items, fillna. split; [| split].
  - rewrite <- list_fmap_compose. apply list_fmap_ext. by intros ? [].
  - intros label row Hin.
    apply list_elem_of_fmap in Hin as ([l r] & Heq & _). cbn in Heq.
    injection Heq as -> ->. cbn.
    repeat split; try (by apply fillna_cell_filled).
    apply Forall_fmap, Forall_forall. intros c _. by apply fillna_cell_filled.
  - rewrite <- list_fmap_compose. apply list_fmap_ext. intros _ [l r] _. cbn.
    unfold prod_map. cbn. f_equal. destruct r as [n d g u fs]. unfold fillna_row. cbn.
    f_equal; try (by destruct n, d, g, u).
    rewrite <- list_fmap_compose. apply list_fmap_ext. intros _ c _. by destruct c.
Qed.

Lemma column_max_attained (col : rating_row -> Z) rows m :
  column_max col rows = Some m -> exists r, r ∈ rows /\ col r = m.
Proof.
  destruct rows as [| r0 rows]; [done |]. cbn. intros H. injection H as <-.
  assert (G : forall acc,
            foldl (fun m x => Z.max m (col x)) acc rows = acc \/
            exists r, r ∈ rows /\ col r = foldl (fun m x => Z.max m (col x)) acc rows).
  { induction rows as [| r1 rows IH]; intros acc; cbn; [by left |].
    destruct (IH (Z.max acc (col r1))) as [E | (r & Hr & E)].
    - rewrite E. destruct (Z.max_spec acc (col r1)) as [[_ ->] | [_ ->]].
      + right. exists r1. split; [by left | done].
      + by left.
    - right. exists r. split; [by right | done]. }
  destruct (G (col r0)) as [E | (r & Hr & E)].
  - exists r0. split; [by left | done].
  - exists r. split; [by right | done].
Qed.

(** X5: [max_user_id] and [max_item_id] are what their names say: the column
    maximum is the value of some row and no row exceeds it; only an empty
    table has none. *)
Theorem column_max_is_the_maximum (col : rating_row -> Z) (rows : list rating_row) :
  (column_max col rows = None <-> rows = []) /\
  (forall m, column_max col rows = Some m ->
     (exists r, r ∈ rows /\ col r = m) /\ forall r, r ∈ rows -> col r <= m).
Proof.
  split.
  - by destruct rows.
  - intros m H. split; [by apply column_max_attained |].
    intros r Hr. by eapply RecommendSpec.column_max_ge.
Qed.

Lemma drop_str_0 (s : string) : drop_str 0 s = s.
Proof. unfold drop_str. rewrite Nat.sub_0_r. apply ItemsSpec.substring_all. Qed.

Lemma drop_str_S (k : nat) (c : ascii) (s : string) :
  drop_str (S k) (String c s) = drop_str k s.
Proof. reflexivity. Qed.

Lemma drop_str_app (k : nat) (pre s : string) :
  (k <= String.length pre)%nat ->
  drop_str k (pre ++ s) = (drop_str k pre ++ s)%string.
Proof.
  revert k. induction pre as [| c pre IH]; intros k Hk.
  - cbn in Hk. assert (k = 0%nat) as -> by lia. by rewrite !drop_str_0.
  - destruct k as [| k]; [by rewrite !drop_str_0 |].
    change ((String c pre ++ s)%string) with (String c (pre ++ s)%string).
    rewrite !drop_str_S. apply IH. cbn in Hk. lia.
Qed.

(** The slice [s[-n:]] of a string that ends in [c] ends in [c]. *)
Lemma suffix_snoc (n : nat) (pre : string) (c : ascii) :
  exists t, suffix (S n) (pre ++ String c EmptyString)
            = (t ++ String c EmptyString)%string.
Proof.
  unfold suffix. rewrite ItemsSpec.length_app_str. cbn [String.length].
  exists (drop_str (String.length pre + 1 - S n) pre).
  apply drop_str_app. lia.
Qed.

Lemma rstrip_snoc (t : string) (c : ascii) :
  is_space c = false ->
  rstrip (t ++ String c EmptyString) = (t ++ String c EmptyString)%string.
Proof.
  intros Hc. induction t as [| a t IH]; simpl.
  - by rewrite Hc.
  - rewrite IH. by destruct t.
Qed.

Lemma lstrip_snoc (t : string) (c : ascii) :
  is_space c = false ->
  exists t', lstrip (t ++ String c EmptyString) = (t' ++ String c EmptyString)%string.
Proof.
  intros Hc. induction t as [| a t IH]; simpl.
  - rewrite Hc. by exists EmptyString.
  - destruct (is_space a); [exact IH | by exists (String a t)].
Qed.

Lemma digits_from_snoc (acc : Z) (t : string) (c : ascii) :
  digit_of c = None -> digits_from acc (t ++ String c EmptyString) = None.
Proof.
  intros Hc. revert acc. induction t as [| a t IH]; intros acc; simpl.
  - by rewrite Hc.
  - destruct (digit_of a); [apply IH | done].
Qed.

Lemma digits_snoc (t : string) (c : ascii) :
  digit_of c = None -> digits (t ++ String c EmptyString) = None.
Proof.
  intros Hc. unfold digits.
  destruct (t ++ String c EmptyString)%string eqn:E; [done |].
  rewrite <- E. by apply digits_from_snoc.
Qed.

Lemma int_rejects (t : string) (c : ascii) :
  digit_of c = None -> is_space c = false ->
  int (t ++ String c EmptyString) = None.
Proof.
  intros Hd Hs. unfold int, strip.
  destruct (lstrip_snoc t c Hs) as [t' ->]. rewrite rstrip_snoc by done.
  destruct t' as [| a t'].
  - cbn. destruct c as [[] [] [] [] [] [] [] []]; try reflexivity;
      cbn; by rewrite ?Hd.
  - change ((String a t' ++ String c EmptyString)%string)
      with (String a (t' ++ String c EmptyString)%string).
    pose proof (digits_snoc t' c Hd) as E1.
    pose proof (digits_snoc (String a t') c Hd) as E2.
    change ((String a t' ++ String c EmptyString)%string)
      with (String a (t' ++ String c EmptyString)%string) in E2.
    destruct a as [[] [] [] [] [] [] [] []]; try exact E2; by rewrite E1.
Qed.

(** X6: a date that ends in a character which is neither a digit nor white
    space has no release year: [int] raises on its last four characters, and
    one such row makes the whole list comprehension of cell 44 fail. *)
Theorem parsed_dates_reject_a_bad_date (items : list (Z * item_row))
    (label : Z) (row : item_row) (pre : string) (c : ascii) :
  digit_of c = None -> is_space c = false ->
  (label, row) ∈ items ->
  date row = Str (pre ++ String c EmptyString) ->
  parsed_date (date row) = None /\ parsed_dates items = None.
Proof.
  intros Hd Hs Hin Hdate.
  assert (E : parsed_date (date row) = None).
  { rewrite Hdate. unfold parsed_date.
    destruct (suffix_snoc 3 pre c) as [t ->]. by apply int_rejects. }
  split; [exact E |].
  unfold parsed_dates. apply mapM_None, Exists_exists. by exists (label, row).
Qed.

Lemma parsed_dates_reject_a_bad_date_witness :
  parsed_date (date (Item (Str "unknown") (Str "unknown") NaN NaN [])) = None /\
  parsed_dates [(1, Item (Str "Toy Story (1995)") (Str "01-Jan-1995") NaN NaN []);
                (267, Item (Str "unknown") (Str "unknown") NaN NaN [])] = None.
Proof.
  apply (parsed_dates_reject_a_bad_date _ 267 _ "unknow" "n"%char).
  - reflexivity.
  - reflexivity.
  - right. left.
  - reflexivity.
Defined.

End ItemsMore.

(** ** Cell 44: the scaled column *)
Module ScaleMore.
Import Stdlib.Reals.Reals Stdlib.micromega.Lra.
Import Scale.
Local Open Scope R_scope.

Lemma handle_zeros_pos (xs : list R) : 0 < handle_zeros_in_scale (std xs).
Proof.
  unfold handle_zeros_in_scale. destruct (Req_dec_T (std xs) 0) as [E | E]; [lra |].
  pose proof (sqrt_pos (var xs)) as H. unfold std in *. lra.
Qed.

Lemma scale_lookup (xs sc : list R) (i : nat) (x x' : R) :
  scale xs = Some sc -> xs !! i = Some x -> sc !! i = Some x' ->
  x' = (x - mean xs) / handle_zeros_in_scale (std xs).
Proof.
  intros H Hx Hx'.
  rewrite ScaleSpec.scale_returns in H by (intros ->; by rewrite lookup_nil in Hx).
  injection H as <-.
  rewrite list_lookup_fmap, Hx in Hx'. cbn in Hx'. by injection Hx' as <-.
Qed.

(** X7: scaling keeps the order of the years: of two rows, the one with the
    later year has the larger scaled date, and equal years get equal scaled
    dates. *)
Theorem scale_keeps_the_order (xs sc : list R) (i j : nat) (x y x' y' : R) :
  scale xs = Some sc ->
  xs !! i = Some x -> xs !! j = Some y ->
  sc !! i = Some x' -> sc !! j = Some y' ->
  (x <= y <-> x' <= y') /\ (x = y <-> x' = y').
Proof.
  intros H Hx Hy Hx' Hy'.
  rewrite (scale_lookup _ _ _ _ _ H Hx Hx'), (scale_lookup _ _ _ _ _ H Hy Hy').
  pose proof (handle_zeros_pos xs) as Hh.
  set (h := handle_zeros_in_scale (std xs)) in *.
  assert (Hi : 0 < / h) by (by apply Rinv_0_lt_compat).
  unfold Rdiv. split; split; intros E.
  - apply Rmult_le_compat_r; lra.
  - apply Rmult_le_reg_r in E; lra.
  - by subst.
  - apply Rmult_eq_reg_r in E; lra.
Qed.

Lemma scale_keeps_the_order_witness :
  (1995 <= 1997 <-> (1995 - mean [1995; 1997]) / handle_zeros_in_scale (std [1995; 1997])
                    <= (1997 - mean [1995; 1997]) / handle_zeros_in_scale (std [1995; 1997])) /\
  (1995 = 1997 <-> (1995 - mean [1995; 1997]) / handle_zeros_in_scale (std [1995; 1997])
                   = (1997 - mean [1995; 1997]) / handle_zeros_in_scale (std [1995; 1997])).
Proof.
  apply (scale_keeps_the_order [1995; 1997]
           ((fun x => (x - mean [1995; 1997]) / handle_zeros_in_scale (std [1995; 1997]))
              <$> [1995; 1997]) 0 1); reflexivity.
Defined.

Lemma sum_constant (c : R) (xs : list R) :
  Forall (fun x => x = c) xs -> sum xs = INR (length xs) * c.
Proof.
  induction 1 as [| x xs -> _ IH].
  - cbn. ring.
  - cbn [sum foldr length]. fold (sum xs). rewrite IH, S_INR. ring.
Qed.

(** X8: when every row has the same year the deviation is zero; the column
    is then divided by one, not by zero, and every scaled date is 0. *)
Theorem scale_of_equal_years (c : R) (xs : list R) :
  xs <> [] -> Forall (fun x => x = c) xs ->
  exists sc, scale xs = Some sc /\ length sc = length xs /\ Forall (fun y => y = 0) sc.
Proof.
  intros Hne Hc. rewrite ScaleSpec.scale_returns by done.
  eexists. split; [reflexivity |]. split; [by rewrite length_fmap |].
  assert (Hm : mean xs = c).
  { unfold mean. rewrite (sum_constant c) by done.
    pose proof (ScaleSpec.length_pos_INR xs Hne). field. lra. }
  apply Forall_fmap. eapply Forall_impl; [exact Hc |].
  intros x ->. cbn. rewrite Hm. unfold Rdiv. ring.
Qed.

Lemma scale_of_equal_years_witness :
  exists sc, scale [1995; 1995; 1995] = Some sc /\
             length sc = length [1995; 1995; 1995] /\ Forall (fun y => y = 0) sc.
Proof.
  apply (scale_of_equal_years 1995 [1995; 1995; 1995]).
  - discriminate.
  - repeat constructor.
Defined.

End ScaleMore.

(** ** Cells 10 to 46: what the models are given and what they return *)
Module KerasMore.
Import Keras Deep Columns.

Section Layers.
Context {F : Type}.
Variable zero : F.
Variables add mul : F -> F -> F.
Variables relu tanh : F -> F.

Lemma has_shape_rows (rows cols : nat) (K : list (list F)) :
  has_shape rows cols K = true -> Forall (fun r => length r = cols) K.
Proof.
  unfold has_shape. intros H. apply andb_true_iff in H as [_ H].
  rewrite forallb_forall in H. apply Forall_forall. intros r Hr.
  apply Nat.eqb_eq, H. by apply list_elem_of_In.
Qed.

Lemma scaled_rows_length (n : nat) (x : list F) (K : list (list F)) :
  Forall (fun r => length r = n) K ->
  Forall (fun r => length r = n) (zip_with (fun xi row => mul xi <$> row) x K).
Proof.
  intros H. revert x. induction H as [| r K Hr _ IH]; intros [| xi x]; cbn;
    try constructor; [by rewrite length_fmap | apply IH].
Qed.

Lemma summed_rows_length (n : nat) (rows : list (list F)) (b : list F) :
  Forall (fun r => length r = n) rows -> length b = n ->
  length (foldl (zip_with add) b rows) = n.
Proof.
  intros H. revert b. induction H as [| r rows Hr _ IH]; intros b Hb; cbn; [done |].
  apply IH. rewrite length_zip_with. lia.
Qed.

(** A dense layer returns as many numbers as it has units. *)
Lemma Dense_length (in_dim units : nat) (layer : list (list F) * list F)
    (activation : F -> F) (x : list F) :
  dense_has_shape in_dim units layer = true ->
  length (Dense add mul layer.1 layer.2 activation x) = units.
Proof.
  unfold dense_has_shape. intros H. apply andb_true_iff in H as [HK Hb].
  apply Nat.eqb_eq in Hb. unfold Dense. rewrite length_fmap.
  apply summed_rows_length; [| done].
  apply scaled_rows_length. by eapply has_shape_rows.
Qed.

(** X9: within the id ranges the metadata model of cell 46 returns exactly
    one number per sample: the predicted rating. *)
Theorem hybrid_model_returns_one_number (max_user_id max_item_id : Z)
    (W : hybrid_weights) (u i : Z) (m : F) :
  hybrid_built max_user_id max_item_id W = true ->
  hybrid_dense_built W = true ->
  0 <= u <= max_user_id -> 0 <= i <= max_item_id ->
  exists y, hybrid_model add mul relu W [u] [i] [m] = Some [y].
Proof.
  unfold hybrid_built, hybrid_dense_built. intros H HD Hu Hi.
  apply andb_true_iff in H as [HU HI].
  apply andb_true_iff in HD as [_ H3].
  destruct (KerasSpec.Embedding_one _ _ _ u HU Hu) as (urow & _ & _ & X1).
  destruct (KerasSpec.Embedding_one _ _ _ i HI Hi) as (irow & _ & _ & X2).
  unfold hybrid_model. rewrite X1, X2. cbn [mbind option_bind].
  unfold hybrid_head. cbn zeta.
  pose proof (Dense_length _ _ _ (fun v => v)
                (Dense add mul (dense_2 W).1 (dense_2 W).2 relu
                   (Dropout (Dense add mul (dense_1 W).1 (dense_1 W).2 relu
                      (merge_concat [Flatten [urow]; Flatten [irow]; [m]])))) H3) as Hl.
  destruct (Dense add mul (dense_3 W).1 (dense_3 W).2 (fun v => v) _)
    as [| y [| ? ?]]; cbn in Hl; try lia.
  by exists y.
Qed.

(** X10: the deep model of cell 26, as the notebook has it, returns two
    numbers per sample where one rating is expected. *)
Theorem deep_model_returns_two_numbers (max_user_id max_item_id : Z)
    (W : deep_weights) (u i : Z) :
  deep_built max_user_id max_item_id W = true ->
  0 <= u <= max_user_id -> 0 <= i <= max_item_id ->
  exists y1 y2, deep_model add mul relu tanh W [u] [i] = Some [y1; y2].
Proof.
  unfold deep_built. intros H Hu Hi.
  apply andb_true_iff in H as [H H2]. apply andb_true_iff in H as [H _].
  apply andb_true_iff in H as [HU HI].
  destruct (KerasSpec.Embedding_one _ _ _ u HU Hu) as (urow & _ & _ & X1).
  destruct (KerasSpec.Embedding_one _ _ _ i HI Hi) as (irow & _ & _ & X2).
  unfold deep_model. rewrite X1, X2. cbn [mbind option_bind].
  pose proof (Dense_length _ _ _ tanh
                (Dense add mul (d_dense_1 W).1 (d_dense_1 W).2 relu
                   (Dropout (merge_concat [Flatten [urow]; Flatten [irow]]))) H2) as Hl.
  destruct (Dense add mul (d_dense_2 W).1 (d_dense_2 W).2 tanh _)
    as [| y1 [| y2 [| ? ?]]]; cbn in Hl; try lia.
  by exists y1, y2.
Qed.

(** Every pair of a batch within the id ranges is scored. *)
Lemma mf_predict_total (max_user_id max_item_id : Z) (W : mf_weights)
    (users items : list Z) :
  mf_built max_user_id max_item_id W = true ->
  length users = length items ->
  Forall (fun u => 0 <= u <= max_user_id) users ->
  Forall (fun i => 0 <= i <= max_item_id) items ->
  exists preds,
    mf_predict zero add mul W users items = Some preds /\
    length preds = length users /\
    Forall (fun p => length p = 1%nat) preds.
Proof.
  intros HW Hlen Hu Hi. unfold mf_predict.
  assert (Hsome : is_Some (mapM (fun ui : Z * Z => mf_model zero add mul W [ui.1] [ui.2])
                             (zip users items))).
  { apply mapM_is_Some_2, Forall_forall. intros [u i] Hin.
    apply elem_of_zip_l in Hin as Hinu. apply elem_of_zip_r in Hin as Hini.
    rewrite Forall_forall in Hu, Hi.
    destruct (KerasSpec.mf_model_one zero add mul _ _ W u i HW (Hu _ Hinu) (Hi _ Hini))
      as (? & ? & _ & _ & _ & _ & E).
    change (is_Some (mf_model zero add mul W [u] [i])). rewrite E. by eexists. }
  destruct Hsome as [preds Hp]. exists preds. split; [exact Hp |].
  pose proof (length_mapM _ _ _ Hp) as Hl. rewrite length_zip in Hl. split; [lia |].
  apply mapM_Some in Hp. apply Forall_forall. intros p Hin.
  apply list_elem_of_lookup in Hin as [k Hk].
  destruct (Forall2_lookup_r _ _ _ _ _ Hp Hk) as ([u i] & _ & Hf).
  cbn [fst snd] in Hf. unfold mf_model in Hf.
  destruct (Embedding (user_embeddings W) [u]); [| done].
  destruct (Embedding (item_embeddings W) [i]); [| done].
  cbn in Hf. by injection Hf as <-.
Qed.
End Layers.

Lemma hybrid_model_returns_one_number_witness :
  exists y, hybrid_model Z.add Z.mul (Z.max 0) demo_hybrid [1] [0] [4] = Some [y].
Proof.
  apply (hybrid_model_returns_one_number Z.add Z.mul (Z.max 0) 1 1 demo_hybrid 1 0 4).
  - reflexivity.
  - reflexivity.
  - lia.
  - lia.
Defined.

Lemma deep_model_returns_two_numbers_witness :
  exists y1 y2, deep_model Z.add Z.mul (Z.max 0) (fun v => v) demo_deep [1] [0]
                = Some [y1; y2].
Proof.
  apply (deep_model_returns_two_numbers Z.add Z.mul (Z.max 0) (fun v => v) 1 1 demo_deep 1 0).
  - reflexivity.
  - lia.
  - lia.
Defined.

End KerasMore.

(** ** Cells 8 to 15 and 44 together *)
Module PipelineMore.
Import Data Split Keras Columns.

Lemma loc_is_Some {A} (s : list (Z * A)) (label : Z) :
  is_Some (loc s label) <-> label ∈ s.*1.
Proof.
  induction s as [| [l x] s IH]; cbn.
  - split; [by intros [? ?] | by intros ?%elem_of_nil].
  - destruct (Z.eqb_spec l label) as [-> | Hne].
    + split; [by left | by eexists].
    + rewrite IH. split; [by right |].
      intros H. by apply elem_of_cons in H as [? | ?].
Qed.

(** X12: [items["scaled_date"][item_id_train]] succeeds when every item id
    of the part is a label of the item table, and its result lines up with
    the part row by row: same length, and the k-th value is the scaled date
    stored under the k-th row's item id. *)
Theorem item_meta_lines_up {M : Type} (scaled_date : list (Z * M))
    (part : list (nat * rating_row)) :
  (Forall (fun row => item_id row.2 ∈ scaled_date.*1) part ->
   is_Some (item_meta scaled_date part)) /\
  (forall metas, item_meta scaled_date part = Some metas ->
     length metas = length part /\
     forall k row, part !! k = Some row ->
       exists m, metas !! k = Some m /\ loc scaled_date (item_id row.2) = Some m).
Proof.
  unfold item_meta, loc_all, column. split.
  - intros H. rewrite mapM_is_Some, <- list_fmap_compose, Forall_fmap.
    eapply Forall_impl; [exact H |]. intros row Hrow. cbn. by apply loc_is_Some.
  - intros metas H. pose proof (length_mapM _ _ _ H) as Hl.
    rewrite !length_fmap in Hl. split; [done |].
    intros k row Hk. apply mapM_Some in H.
    assert (Hid : (item_id <$> part.*2) !! k = Some (item_id row.2)).
    { by rewrite !list_lookup_fmap, Hk. }
    destruct (Forall2_lookup_l _ _ _ _ _ H Hid) as (m & Hm & Hloc).
    by exists m.
Qed.

Section Pipeline.
Context {F : Type}.
Variable zero : F.
Variables add mul : F -> F -> F.
Variable permutation : nat -> list nat.
Hypothesis permutation_spec : forall n, permutation n ≡ₚ seq 0 n.

Lemma part_in_range (all_ratings : list rating_row) (col : rating_row -> Z) (m : Z)
    (part : list (nat * rating_row)) :
  column_max col all_ratings = Some m ->
  Forall (fun r => 0 <= col r) all_ratings ->
  (forall p, p ∈ part -> p.2 ∈ all_ratings) ->
  Forall (fun x => 0 <= x <= m) (column col part).
Proof.
  intros Hm Hpos Hin. unfold column. rewrite <- list_fmap_compose.
  apply Forall_fmap, Forall_forall. intros p Hp. cbn.
  rewrite Forall_forall in Hpos. split; [by apply Hpos, Hin |].
  eapply RecommendSpec.column_max_ge; [exact Hm | by apply Hin].
Qed.

(** X11: with ids that are not negative, the embedding tables sized by
    [max_user_id + 1] and [max_item_id + 1] hold a row for every id of the
    training part and of the test part: [model.predict] scores every row of
    either part, with one number each. *)
Theorem predict_covers_both_parts (all_ratings : list rating_row)
    (max_user_id max_item_id : Z) (W : mf_weights) :
  column_max user_id all_ratings = Some max_user_id ->
  column_max item_id all_ratings = Some max_item_id ->
  Forall (fun r => 0 <= user_id r) all_ratings ->
  Forall (fun r => 0 <= item_id r) all_ratings ->
  mf_built max_user_id max_item_id W = true ->
  exists ratings_train ratings_test train_preds test_preds,
    train_test_split permutation all_ratings = Some (ratings_train, ratings_test) /\
    mf_predict zero add mul W (column user_id ratings_train) (column item_id ratings_train)
      = Some train_preds /\
    length train_preds = length ratings_train /\
    Forall (fun p => length p = 1%nat) train_preds /\
    mf_predict zero add mul W (column user_id ratings_test) (column item_id ratings_test)
      = Some test_preds /\
    length test_preds = length ratings_test /\
    Forall (fun p => length p = 1%nat) test_preds.
Proof.
  intros Hmu Hmi Hu Hi HW.
  destruct (SplitSpec.split_permutation permutation permutation_spec all_ratings)
    as (train & test & E & _ & Hp).
  assert (Hin : forall p, p ∈ train ++ test -> p.2 ∈ all_ratings).
  { intros p Hp'. rewrite Hp in Hp'.
    apply elem_of_lookup_imap in Hp' as (k & r & -> & Hk). cbn.
    by eapply list_elem_of_lookup_2. }
  destruct (KerasMore.mf_predict_total zero add mul max_user_id max_item_id W
              (column user_id train) (column item_id train) HW)
    as (ptr & E1 & L1 & S1).
  { unfold column. by rewrite !length_fmap. }
  { eapply part_in_range; [exact Hmu | exact Hu |].
    intros p Hp'. apply Hin, elem_of_app. by left. }
  { eapply part_in_range; [exact Hmi | exact Hi |].
    intros p Hp'. apply Hin, elem_of_app. by left. }
  destruct (KerasMore.mf_predict_total zero add mul max_user_id max_item_id W
              (column user_id test) (column item_id test) HW)
    as (pte & E2 & L2 & S2).
  { unfold column. by rewrite !length_fmap. }
  { eapply part_in_range; [exact Hmu | exact Hu |].
    intros p Hp'. apply Hin, elem_of_app. by right. }
  { eapply part_in_range; [exact Hmi | exact Hi |].
    intros p Hp'. apply Hin, elem_of_app. by right. }
  exists train, test, ptr, pte. unfold column in L1, L2. rewrite !length_fmap in L1, L2.
  done.
Qed.
End Pipeline.

Lemma predict_covers_both_parts_witness :
  exists ratings_train ratings_test train_preds test_preds,
    train_test_split reversed [Rating 1 0 5 0; Rating 0 1 3 0]
      = Some (ratings_train, ratings_test) /\
    mf_predict 0 Z.add Z.mul demo_mf (column user_id ratings_train)
      (column item_id ratings_train) = Some train_preds /\
    length train_preds = length ratings_train /\
    Forall (fun p => length p = 1%nat) train_preds /\
    mf_predict 0 Z.add Z.mul demo_mf (column user_id ratings_test)
      (column item_id ratings_test) = Some test_preds /\
    length test_preds = length ratings_test /\
    Forall (fun p => length p = 1%nat) test_preds.
Proof.
  apply (predict_covers_both_parts 0 Z.add Z.mul reversed SplitSpec.reversed_permutation
           [Rating 1 0 5 0; Rating 0 1 3 0] 1 1 demo_mf).
  - reflexivity.
  - reflexivity.
  - repeat constructor; cbn; lia.
  - repeat constructor; cbn; lia.
  - reflexivity.
Defined.

End PipelineMore.

(** ** Cell 50: what [recommend] returns and when it fails *)
Module RecommendMore.
Import Data Numpy Recommend.

Lemma filter_seqZ_increasing (P : Z -> Prop) {Pdec : forall x, Decision (P x)}
    (len : nat) (a : Z) (i j : nat) (x y : Z) :
  (i < j)%nat ->
  filter P (seqZ a (Z.of_nat len)) !! i = Some x ->
  filter P (seqZ a (Z.of_nat len)) !! j = Some y ->
  x < y.
Proof.
  revert a i j. induction len as [| len IH]; intros a i j Hij Hi Hj.
  - rewrite seqZ_nil in Hi by (cbn; lia). by rewrite filter_nil, lookup_nil in Hi.
  - rewrite seqZ_cons in Hi, Hj by lia.
    replace (Z.pred (Z.of_nat (S len))) with (Z.of_nat len) in Hi, Hj by lia.
    rewrite filter_cons in Hi, Hj. destruct (decide (P a)).
    + destruct j as [| j]; [lia |]. cbn in Hj. destruct i as [| i]; cbn in Hi.
      * injection Hi as <-. apply RecommendSpec.filter_seqZ_lookup in Hj. lia.
      * apply (IH (Z.succ a) i j); [lia | done | done].
    + by apply (IH (Z.succ a) i j).
Qed.

Lemma slice_to_take {A} (top_n : Z) (l : list A) :
  exists m, slice_to top_n l = take m l /\
            Z.of_nat (length (slice_to top_n l))
            = if decide (0 <= top_n) then Z.min top_n (Z.of_nat (length l))
              else Z.max 0 (Z.of_nat (length l) + top_n).
Proof.
  unfold slice_to. destruct (decide (0 <= top_n)).
  - eexists. split; [done |]. rewrite length_take. lia.
  - eexists. split; [done |]. rewrite length_take. lia.
Qed.

Section Recommend.
Context {score meta : Type}.
Variable argsort : list score -> list nat.
Variable predict : Z -> Z -> meta -> score.
Variable all_ratings : list rating_row.
Variable items_name : list (Z * cell).
Variable items_scaled_date : list (Z * meta).

(** X17: the candidates are listed by strictly increasing id, so none is
    listed twice. *)
Theorem candidates_increase (max_item_id user_id : Z) (i j : nat) (x y : Z) :
  (i < j)%nat ->
  candidates all_ratings max_item_id user_id !! i = Some x ->
  candidates all_ratings max_item_id user_id !! j = Some y ->
  x < y.
Proof.
  unfold candidates, range. intros Hij Hi Hj.
  destruct (decide (0 <= max_item_id - 1)) as [Hm | Hm].
  - rewrite <- (Z2Nat.id (max_item_id - 1)) in Hi, Hj by done.
    by eapply filter_seqZ_increasing.
  - rewrite seqZ_nil in Hi by lia. by rewrite filter_nil, lookup_nil in Hi.
Qed.

Lemma recommend_unfold (user_id top_n : Z) (res : list (cell * score)) :
  recommend argsort predict all_ratings items_name items_scaled_date user_id top_n
    = Some res ->
  exists max_item_id preds,
    column_max item_id all_ratings = Some max_item_id /\
    rating_preds predict items_scaled_date user_id
      (candidates all_ratings max_item_id user_id) = Some preds /\
    length preds = length (candidates all_ratings max_item_id user_id) /\
    mapM (pair_for items_name preds) (slice_to top_n (reverse (argsort preds)))
      = Some res.
Proof.
  unfold recommend. intros H.
  destruct (column_max item_id all_ratings) as [max_item_id |]; [| done]. cbn in H.
  destruct (rating_preds _ _ _ _) as [preds |] eqn:E; [| done]. cbn in H.
  exists max_item_id, preds. repeat split; try done.
  by apply RecommendSpec.rating_preds_inv in E as [? _].
Qed.

(** X14: when [recommend] returns, it returns [top_n] pairs or one per
    candidate, whichever is less; a negative [top_n] counts from the end, as
    Python slices do, and leaves out the [-top_n] lowest ranked. *)
Theorem recommend_count (user_id top_n max_item_id : Z) (res : list (cell * score)) :
  (forall v, argsort v ≡ₚ seq 0 (length v)) ->
  column_max item_id all_ratings = Some max_item_id ->
  recommend argsort predict all_ratings items_name items_scaled_date user_id top_n
    = Some res ->
  Z.of_nat (length res)
  = if decide (0 <= top_n)
    then Z.min top_n (Z.of_nat (length (candidates all_ratings max_item_id user_id)))
    else Z.max 0 (Z.of_nat (length (candidates all_ratings max_item_id user_id)) + top_n).
Proof.
  intros Hperm Hmax H.
  destruct (recommend_unfold _ _ _ H) as (mx & preds & Emx & _ & Hlen & Hm).
  rewrite Hmax in Emx. injection Emx as <-.
  apply length_mapM in Hm. rewrite <- Hm.
  destruct (slice_to_take top_n (reverse (argsort preds))) as (m & _ & ->).
  by rewrite length_reverse, (Permutation_length (Hperm preds)), length_seq, Hlen.
Qed.

(** X15: the returned ratings are the highest ones: a candidate position
    that is not among those returned has a predicted rating that is at most
    every returned rating. *)
Theorem recommend_returns_the_top (leb : score -> score -> bool)
    (user_id top_n max_item_id : Z) (preds : list score) (res : list (cell * score))
    (k q : nat) (n : cell) (s sq : score) :
  (forall v, is_argsort leb v (argsort v)) ->
  column_max item_id all_ratings = Some max_item_id ->
  rating_preds predict items_scaled_date user_id
    (candidates all_ratings max_item_id user_id) = Some preds ->
  recommend argsort predict all_ratings items_name items_scaled_date user_id top_n
    = Some res ->
  res !! k = Some (n, s) ->
  preds !! q = Some sq ->
  q ∉ slice_to top_n (reverse (argsort preds)) ->
  leb sq s = true.
Proof.
  intros Hspec Hmax Hpreds H Hk Hq Hout.
  destruct (recommend_unfold _ _ _ H) as (mx & preds' & Emx & Epr & _ & Hm).
  rewrite Hmax in Emx. injection Emx as <-.
  rewrite Hpreds in Epr. injection Epr as <-.
  destruct (RecommendSpec.pairs_inv _ _ _ _ _ _ _ Hm Hk) as (movie & Hmv & _ & Hs).
  destruct (Hspec preds) as [Hperm Hsorted].
  destruct (slice_to_take top_n (reverse (argsort preds))) as (m & Em & _).
  rewrite Em in Hmv, Hout.
  apply lookup_take_Some in Hmv as [Hmv Hkm].
  assert (Hqin : q ∈ reverse (argsort preds)).
  { rewrite reverse_Permutation, Hperm. apply elem_of_seq.
    apply lookup_lt_Some in Hq. lia. }
  apply list_elem_of_lookup in Hqin as [i Hi].
  assert (Him : (m <= i)%nat).
  { destruct (decide (i < m)%nat) as [Hlt |]; [| lia].
    exfalso. apply Hout. apply list_elem_of_lookup. exists i.
    by apply lookup_take_Some. }
  apply reverse_lookup_Some in Hmv as [Hmv Hk'].
  apply reverse_lookup_Some in Hi as [Hi Hi'].
  eapply (Hsorted _ _ q movie); [| exact Hi | exact Hmv | exact Hq | exact Hs].
  lia.
Qed.

(** X16: the item table of MovieLens has no label 0, and the best-to-worst
    list of positions always holds position 0; so asking for at least as
    many recommendations as there are candidates raises [KeyError]: the
    function returns nothing. *)
Theorem recommend_fails_on_position_zero (user_id top_n max_item_id : Z) :
  (forall v, argsort v ≡ₚ seq 0 (length v)) ->
  loc items_name 0 = None ->
  column_max item_id all_ratings = Some max_item_id ->
  candidates all_ratings max_item_id user_id <> [] ->
  Z.of_nat (length (candidates all_ratings max_item_id user_id)) <= top_n ->
  recommend argsort predict all_ratings items_name items_scaled_date user_id top_n
    = None.
Proof.
  intros Hperm Hzero Hmax Hne Hn. unfold recommend. rewrite Hmax. cbn.
  destruct (rating_preds _ _ _ _) as [preds |] eqn:E; [| done]. cbn.
  apply RecommendSpec.rating_preds_inv in E as [Hlen _].
  apply mapM_None, Exists_exists. exists 0%nat. split.
  - unfold slice_to. rewrite decide_True by lia.
    rewrite take_ge.
    2:{ rewrite length_reverse, (Permutation_length (Hperm preds)), length_seq. lia. }
    rewrite reverse_Permutation, Hperm. apply elem_of_seq.
    destruct (candidates all_ratings max_item_id user_id); [done |].
    cbn in Hlen. lia.
  - unfold pair_for. change (Z.of_nat 0) with 0. by rewrite Hzero.
Qed.
End Recommend.

Lemma candidates_increase_witness : 1 < 4.
Proof.
  apply (candidates_increase other_ratings 5 1 0 2 1 4); [lia | reflexivity ..].
Defined.

Lemma recommend_ranked_witness : (33 <=? 44) = true.
Proof.
  apply (RecommendSpec.recommend_ranked (insertion_argsort Z.leb) demo_predict
           other_ratings demo_names demo_scaled_date Z.leb 1 2
           [(Str "GoldenEye (1995)", 44); (Str "Toy Story (1995)", 33)]
           0 1 (Str "GoldenEye (1995)") 44 (Str "Toy Story (1995)") 33).
  - apply NumpySpec.insertion_argsort_Z.
  - reflexivity.
  - lia.
  - reflexivity.
  - reflexivity.
Defined.

Lemma recommend_count_witness :
  Z.of_nat (length [(Str "GoldenEye (1995)", 44); (Str "Toy Story (1995)", 33)])
  = if decide (0 <= -1)
    then Z.min (-1) (Z.of_nat (length (candidates other_ratings 5 1)))
    else Z.max 0 (Z.of_nat (length (candidates other_ratings 5 1)) + -1).
Proof.
  apply (recommend_count (insertion_argsort Z.leb) demo_predict other_ratings
           demo_names demo_scaled_date 1 (-1) 5).
  - intros v. apply NumpySpec.insertion_argsort_Z.
  - reflexivity.
  - reflexivity.
Defined.

Lemma recommend_returns_the_top_witness : (11 <=? 33) = true.
Proof.
  apply (recommend_returns_the_top (insertion_argsort Z.leb) demo_predict other_ratings
           demo_names demo_scaled_date Z.leb 1 2 5 [11; 33; 44]
           [(Str "GoldenEye (1995)", 44); (Str "Toy Story (1995)", 33)]
           1 0 (Str "Toy Story (1995)") 33 11).
  - apply NumpySpec.insertion_argsort_Z.
  - reflexivity.
  - reflexivity.
  - reflexivity.
  - reflexivity.
  - reflexivity.
  - vm_compute. intros H.
    repeat (apply elem_of_cons in H as [H | H]; [discriminate |]).
    by apply elem_of_nil in H.
Defined.

Lemma recommend_fails_on_position_zero_witness :
  recommend (insertion_argsort Z.leb) demo_predict other_ratings demo_names
    demo_scaled_date 1 3 = None.
Proof.
  apply (recommend_fails_on_position_zero (insertion_argsort Z.leb) demo_predict
           other_ratings demo_names demo_scaled_date 1 3 5).
  - intros v. apply NumpySpec.insertion_argsort_Z.
  - reflexivity.
  - reflexivity.
  - discriminate.
  - vm_compute. discriminate.
Defined.

End RecommendMore.

(** ** Cell 44: the range of the release years *)
Module DatesMore.
Import Columns.

Lemma foldl_max_bounds (d : Z) (ds : list Z) :
  d <= foldl Z.max d ds /\
  (forall x, x ∈ ds -> x <= foldl Z.max d ds) /\
  foldl Z.max d ds ∈ d :: ds.
Proof.
  revert d. induction ds as [| e ds IH]; intros d; cbn.
  - split; [lia |]. split; [by intros ? ?%elem_of_nil | by left].
  - destruct (IH (Z.max d e)) as (H1 & H2 & H3). split; [lia |]. split.
    + intros x Hx. apply elem_of_cons in Hx as [-> | Hx]; [lia | by apply H2].
    + apply elem_of_cons in H3 as [-> | H3].
      * destruct (Z.max_spec d e) as [[_ ->] | [_ ->]]; [right; by left | by left].
      * right. by right.
Qed.

Lemma foldl_min_bounds (d : Z) (ds : list Z) :
  foldl Z.min d ds <= d /\
  (forall x, x ∈ ds -> foldl Z.min d ds <= x) /\
  foldl Z.min d ds ∈ d :: ds.
Proof.
  revert d. induction ds as [| e ds IH]; intros d; cbn.
  - split; [lia |]. split; [by intros ? ?%elem_of_nil | by left].
  - destruct (IH (Z.min d e)) as (H1 & H2 & H3). split; [lia |]. split.
    + intros x Hx. apply elem_of_cons in Hx as [-> | Hx]; [lia | by apply H2].
    + apply elem_of_cons in H3 as [-> | H3].
      * destruct (Z.min_spec d e) as [[_ ->] | [_ ->]]; [by left | right; by left].
      * right. by right.
Qed.

(** X18: on a table with at least one row, [min_date] and [max_date] are
    years of the table and every year lies between them; on an empty table
    both raise. *)
Theorem date_range_bounds (parsed : list Z) :
  (parsed = [] -> min_date parsed = None /\ max_date parsed = None) /\
  (parsed <> [] ->
     exists lo hi, min_date parsed = Some lo /\ max_date parsed = Some hi /\
                   lo ∈ parsed /\ hi ∈ parsed /\
                   forall d, d ∈ parsed -> lo <= d <= hi).
Proof.
  split; [by intros -> |].
  intros Hne. destruct parsed as [| d ds]; [done |]. cbn.
  destruct (foldl_max_bounds d ds) as (M1 & M2 & M3).
  destruct (foldl_min_bounds d ds) as (N1 & N2 & N3).
  exists (foldl Z.min d ds), (foldl Z.max d ds).
  split; [done |]. split; [done |]. split; [exact N3 |]. split; [exact M3 |].
  intros x Hx. apply elem_of_cons in Hx as [-> | Hx]; [lia |].
  split; [by apply N2 | by apply M2].
Qed.

End DatesMore.
